(** * The federated informer of KubeAdmiral, embedded and verified

    Source: [pkg/controllers/util/federatedinformer.go].

    The Go code keeps one watch handle (an [informer]) per ready member
    cluster in a map guarded by a mutex, and exposes a read-only overlay over
    the handles' local mirrors.  The embedding is sequential: every method
    runs to completion on a state value (the mutex is what makes this the
    right granularity), a Go panic is an explicit outcome, channels live in
    an explicit heap and the observable actions (closing a channel, starting
    a controller, invoking a lifecycle callback) are appended to a log. *)

From stdpp Require Import gmap strings list fin_maps.

Open Scope string_scope.
Open Scope list_scope.

(** ** Errors *)

(** Go [error] values.  [Errorf] stands for [errors.Errorf] and [fmt.Errorf]
    without [%w], [Wrap] for [errors.Wrap] and [fmt.Errorf] with [%w], and
    [StatusError] for the API machinery's status errors, which carry a
    reason and an HTTP status code. *)
Inductive error : Type :=
| Errorf (msg : string)
| Wrap (msg : string) (cause : error)
| StatusError (reason : string) (code : Z) (msg : string).

(** A fallible call whose value is only meaningful when the error is nil. *)
Inductive result (A : Type) : Type :=
| Ok (a : A)
| Err (e : error).
Arguments Ok {A} a.
Arguments Err {A} e.

Module apierrors.
Definition StatusReasonNotFound : string := "NotFound".

Definition StatusReasonUnknown : string := "".
Definition StatusNotFound : Z := 404.

(** The status reasons the library knows; the unknown reason is not one of
    them. *)
Definition knownReasons : list string :=
  ["Unauthorized"; "Forbidden"; "NotFound"; "AlreadyExists"; "Conflict";
   "Gone"; "Invalid"; "ServerTimeout"; "Timeout"; "TooManyRequests";
   "BadRequest"; "MethodNotAllowed"; "NotAcceptable"; "RequestEntityTooLarge";
   "UnsupportedMediaType"; "InternalError"; "Expired"; "ServiceUnavailable"].

(** [reasonAndCodeForError]: the reason and code of the status error that
    the error is or wraps; the unknown reason and code 0 for an error that
    holds no status. *)
Fixpoint reasonAndCodeForError (err : error) : string * Z :=
  match err with
  | Errorf _ => (StatusReasonUnknown, 0%Z)
  | Wrap _ cause => reasonAndCodeForError cause
  | StatusError reason code _ => (reason, code)
  end.

(** [apierrors.IsNotFound]: the reason is NotFound, or the reason is not a
    known one and the code is 404. *)
Definition IsNotFound (err : error) : bool :=
  let '(reason, code) := reasonAndCodeForError err in
  if String.eqb reason StatusReasonNotFound then true
  else if negb (existsb (String.eqb reason) knownReasons)
          && (code =? StatusNotFound)%Z then true
  else false.
End apierrors.

(** ** Kubernetes objects *)

Record ObjectMeta : Type := {
  Name : string;
  Namespace : string;
  DeletionTimestamp : option Z;
  (* a Go map is nil or a map: [reflect.DeepEqual] tells the two apart *)
  Labels : option (gmap string string);
  Annotations : option (gmap string string)
}.

Record ClusterCondition : Type := {
  condType : string;
  condStatus : string
}.

Module corev1.
Definition ConditionTrue : string := "True".
Definition ConditionFalse : string := "False".
End corev1.

(** Modelled from the spec: the declarations of [FederatedCluster], its spec
    and its condition types live in [pkg/apis/core/v1alpha1], which is not
    part of the sources at hand.  The spec names the Joined and the Ready
    condition and treats the cluster spec as opaque connection and identity
    information that is compared structurally. *)
Record FederatedClusterSpec : Type := {
  APIEndpoint : string;
  Insecure : bool;
  SecretRef : string
}.

Record FederatedClusterStatus : Type := {
  Conditions : list ClusterCondition
}.

Record FederatedCluster : Type := {
  Meta : ObjectMeta;
  Spec : FederatedClusterSpec;
  Status : FederatedClusterStatus
}.

Module fedcorev1a1.
Definition ClusterJoined : string := "Joined".
Definition ClusterReady : string := "Ready".
End fedcorev1a1.

Record Unstructured : Type := {
  Kind : string;
  APIVersion : string;
  UMeta : ObjectMeta
}.

(** What a Go [interface{}] holds in this program: a cluster, an
    unstructured object, the tombstone the cache hands to delete handlers,
    an explicit key, or something else without object metadata. *)
Inductive Item : Type :=
| ItemCluster (c : FederatedCluster)
| ItemUnstructured (u : Unstructured)
| ItemDeletedFinalStateUnknown (key : string) (obj : Item)
| ItemExplicitKey (key : string)
| ItemOther (descr : string).

#[global] Instance ObjectMeta_eq_dec : EqDecision ObjectMeta.
Proof. solve_decision. Defined.
#[global] Instance FederatedClusterSpec_eq_dec : EqDecision FederatedClusterSpec.
Proof. solve_decision. Defined.

(** ** The cache package, at its interface *)

Module cache.
(** [cache.Store], read side: the mirrored objects and the lookup by key,
    which returns Go's triple (item, exists, err). *)
Record Store : Type := {
  List : list Item;
  GetByKey : string -> option Item * bool * option error
}.

(** [cache.Controller]: the background task; [HasSynced] is its flag at
    the time of the observation. *)
Record Controller : Type := {
  HasSynced : bool
}.

(** Modelled from the spec: the two key functions belong to client-go's
    [tools/cache], which is not part of the sources at hand.  The spec
    describes the key as the namespace and name composite that also works
    on the tombstone of a deleted object; as in client-go, an item without
    object metadata yields the empty key together with an error. *)
Definition MetaNamespaceKeyFunc (obj : Item) : string * option error :=
  let of_meta (m : ObjectMeta) :=
    if (0 <? String.length (Namespace m))%nat
    then (Namespace m +:+ "/" +:+ Name m, None)
    else (Name m, None) in
  match obj with
  | ItemExplicitKey key => (key, None)
  | ItemCluster c => of_meta (Meta c)
  | ItemUnstructured u => of_meta (UMeta u)
  | _ => ("", Some (Errorf "object has no meta"))
  end.

Definition DeletionHandlingMetaNamespaceKeyFunc (obj : Item)
  : string * option error :=
  match obj with
  | ItemDeletedFinalStateUnknown key _ => (key, None)
  | _ => MetaNamespaceKeyFunc obj
  end.
End cache.

(** ** Readiness and joinedness *)

Fixpoint IsClusterReady_loop (conditions : list ClusterCondition) : bool :=
  match conditions with
  | [] => false
  | condition :: rest =>
      if String.eqb (condType condition) fedcorev1a1.ClusterReady then
        if String.eqb (condStatus condition) corev1.ConditionTrue then true
        else IsClusterReady_loop rest
      else IsClusterReady_loop rest
  end.

Definition IsClusterReady (clusterStatus : FederatedClusterStatus) : bool :=
  IsClusterReady_loop (Conditions clusterStatus).

Fixpoint IsClusterJoined_loop (conditions : list ClusterCondition) : bool :=
  match conditions with
  | [] => false
  | condition :: rest =>
      if String.eqb (condType condition) fedcorev1a1.ClusterJoined then
        if String.eqb (condStatus condition) corev1.ConditionTrue then true
        else IsClusterJoined_loop rest
      else IsClusterJoined_loop rest
  end.

Definition IsClusterJoined (clusterStatus : FederatedClusterStatus) : bool :=
  IsClusterJoined_loop (Conditions clusterStatus).

(** ** The informer's state *)

(** A Go channel value: nil, or a channel of the heap. *)
Definition Chan : Type := option nat.

Record informer : Type := {
  controller : cache.Controller;
  store : cache.Store;
  stopChan : Chan
}.

(** [restclient.Config], as far as this code looks into it. *)
Record Config : Type := {
  Host : string;
  UserAgent : string
}.

Module generic.
(** [generic.Client], read side: [Get] fills the object it is given and
    returns an error or nil. *)
Record Client : Type := {
  Get : Unstructured -> string -> string -> Unstructured * option error
}.
End generic.

(** The actions of the informer that the outside can observe. *)
Inductive Event : Type :=
| EvClose (ch : nat)                       (* close(stopChan) *)
| EvInstall (name : string) (ch : nat)     (* f.targetInformers[name] = ... *)
| EvRun (ch : Chan)                        (* go controller.Run(stopChan) *)
| EvRemove (name : string)                 (* deleteCluster's two deletes *)
| EvSnapshot (name : string)               (* getClusterData(name) *)
| EvClusterAvailable (c : FederatedCluster)
| EvClusterUnavailable (c : FederatedCluster) (data : list Item).

(** [federatedInformerImpl], with the two pieces of the Go runtime that its
    methods act on: the heap of channels ([true] is a closed channel) and
    the log of observable actions. *)
Record federatedInformerImpl : Type := {
  clusterInformer : informer;
  targetInformerFactory :
    FederatedCluster -> Config -> result (cache.Store * cache.Controller);
  targetInformers : gmap string informer;
  configFactory : FederatedCluster -> result Config;
  clusterClients : gmap string generic.Client;
  chans : list bool;
  log : list Event
}.

Definition set_clusterInformer (i : informer) (f : federatedInformerImpl)
  : federatedInformerImpl :=
  {| clusterInformer := i;
     targetInformerFactory := targetInformerFactory f;
     targetInformers := targetInformers f;
     configFactory := configFactory f;
     clusterClients := clusterClients f;
     chans := chans f;
     log := log f |}.

Definition set_targetInformers (m : gmap string informer)
  (f : federatedInformerImpl) : federatedInformerImpl :=
  {| clusterInformer := clusterInformer f;
     targetInformerFactory := targetInformerFactory f;
     targetInformers := m;
     configFactory := configFactory f;
     clusterClients := clusterClients f;
     chans := chans f;
     log := log f |}.

Definition set_clusterClients (m : gmap string generic.Client)
  (f : federatedInformerImpl) : federatedInformerImpl :=
  {| clusterInformer := clusterInformer f;
     targetInformerFactory := targetInformerFactory f;
     targetInformers := targetInformers f;
     configFactory := configFactory f;
     clusterClients := m;
     chans := chans f;
     log := log f |}.

Definition set_chans (c : list bool) (f : federatedInformerImpl)
  : federatedInformerImpl :=
  {| clusterInformer := clusterInformer f;
     targetInformerFactory := targetInformerFactory f;
     targetInformers := targetInformers f;
     configFactory := configFactory f;
     clusterClients := clusterClients f;
     chans := c;
     log := log f |}.

Definition set_log (l : list Event) (f : federatedInformerImpl)
  : federatedInformerImpl :=
  {| clusterInformer := clusterInformer f;
     targetInformerFactory := targetInformerFactory f;
     targetInformers := targetInformers f;
     configFactory := configFactory f;
     clusterClients := clusterClients f;
     chans := chans f;
     log := l |}.

(** ** Methods as state transformers that may panic *)

Inductive Outcome (A : Type) : Type :=
| Done (a : A) (f : federatedInformerImpl)
| Panic (msg : string).
Arguments Done {A} a f.
Arguments Panic {A} msg.

Definition M (A : Type) : Type := federatedInformerImpl -> Outcome A.

#[global] Instance M_ret : MRet M := fun A a f => Done a f.
#[global] Instance M_bind : MBind M := fun A B k m f =>
  match m f with
  | Done a f' => k a f'
  | Panic msg => Panic msg
  end.

Definition get : M federatedInformerImpl := fun f => Done f f.
Definition modify (g : federatedInformerImpl -> federatedInformerImpl) : M unit :=
  fun f => Done tt (g f).
Definition panic {A : Type} (msg : string) : M A := fun _ => Panic msg.
Definition emit (ev : Event) : M unit :=
  modify (fun f => set_log (log f ++ [ev]) f).

(** [make(chan struct{})]: a fresh open channel. *)
Definition make_chan : M nat := fun f =>
  Done (length (chans f)) (set_chans (chans f ++ [false]) f).

(** [close(ch)]: closing a nil channel or a closed channel panics. *)
Definition close (ch : Chan) : M unit := fun f =>
  match ch with
  | None => Panic "close of nil channel"
  | Some c =>
      match chans f !! c with
      | Some false =>
          Done tt (set_log (log f ++ [EvClose c]) (set_chans (<[c:=true]> (chans f)) f))
      | Some true => Panic "close of closed channel"
      | None => Panic "close of nil channel"
      end
  end.

(** ** Registry-view queries *)

Definition wrongData : error :=
  Errorf "wrong data in FederatedInformerImpl cluster store".

Fixpoint GetUnreadyClusters_loop (items : list Item) (acc : list FederatedCluster)
  : result (list FederatedCluster) :=
  match items with
  | [] => Ok acc
  | ItemCluster cluster :: rest =>
      if negb (IsClusterReady (Status cluster))
      then GetUnreadyClusters_loop rest (acc ++ [cluster])
      else GetUnreadyClusters_loop rest acc
  | _ :: _ => Err wrongData
  end.

Definition GetUnreadyClusters (f : federatedInformerImpl)
  : result (list FederatedCluster) :=
  GetUnreadyClusters_loop (cache.List (store (clusterInformer f))) [].

Fixpoint getJoinedClusters_loop (onlyReady : bool) (items : list Item)
  (acc : list FederatedCluster) : result (list FederatedCluster) :=
  match items with
  | [] => Ok acc
  | ItemCluster cluster :: rest =>
      if IsClusterJoined (Status cluster)
         && (negb onlyReady || IsClusterReady (Status cluster))
      then getJoinedClusters_loop onlyReady rest (acc ++ [cluster])
      else getJoinedClusters_loop onlyReady rest acc
  | _ :: _ => Err wrongData
  end.

(** getJoinedClusters returns only ready clusters if onlyReady is true and
    all joined clusters otherwise. *)
Definition getJoinedClusters (onlyReady : bool) (f : federatedInformerImpl)
  : result (list FederatedCluster) :=
  getJoinedClusters_loop onlyReady (cache.List (store (clusterInformer f))) [].

Definition GetReadyClusters (f : federatedInformerImpl) := getJoinedClusters true f.
Definition GetJoinedClusters (f : federatedInformerImpl) := getJoinedClusters false f.

Definition getClusterUnlocked (f : federatedInformerImpl) (key : string)
  : option FederatedCluster * bool * option error :=
  match cache.GetByKey (store (clusterInformer f)) key with
  | (obj, true, None) =>
      match obj with
      | Some (ItemCluster cluster) => (Some cluster, true, None)
      | _ => (None, false, Some wrongData)
      end
  | (_, _, err) => (None, false, err)
  end.

Definition getReadyClusterUnlocked (f : federatedInformerImpl) (key : string)
  : option FederatedCluster * bool * option error :=
  match getClusterUnlocked f key with
  | (Some cluster, true, None) =>
      if IsClusterReady (Status cluster) then (Some cluster, true, None)
      else (None, false, None)
  | (_, _, err) => (None, false, err)
  end.

Definition getConfigForClusterUnlocked (f : federatedInformerImpl)
  (clusterName : string) : result Config :=
  match getReadyClusterUnlocked f clusterName with
  | (Some cluster, true, None) => configFactory f cluster
  | (_, _, Some err) => Err err
  | (_, _, None) => Err (Errorf ("cluster " +:+ clusterName +:+ " not found"))
  end.

(** ** The per-cluster watch manager *)

Definition Start : M unit :=
  ch ← make_chan;
  modify (fun f =>
    set_clusterInformer
      {| controller := controller (clusterInformer f);
         store := store (clusterInformer f);
         stopChan := Some ch |} f);;
  emit (EvRun (Some ch)).

Fixpoint Stop_loop (entries : list (string * informer)) : M unit :=
  match entries with
  | [] => mret tt
  | (key, inf) :: rest =>
      close (stopChan inf);;
      (* Remove each informer after it has been stopped *)
      modify (fun f => set_targetInformers (delete key (targetInformers f)) f);;
      Stop_loop rest
  end.

Definition Stop : M unit :=
  f ← get;
  close (stopChan (clusterInformer f));;
  Stop_loop (map_to_list (targetInformers f)).

(** Adds the given cluster to federated informer. *)
Definition addCluster (cluster : FederatedCluster) : M unit :=
  f ← get;
  let name := Name (Meta cluster) in
  match getConfigForClusterUnlocked f name with
  | Ok config =>
      match targetInformerFactory f cluster config with
      | Err _ => mret tt
      | Ok (st, ctl) =>
          ch ← make_chan;
          let targetInformer :=
            {| controller := ctl; store := st; stopChan := Some ch |} in
          modify (fun f =>
            set_targetInformers (<[name := targetInformer]> (targetInformers f)) f);;
          emit (EvInstall name ch);;
          emit (EvRun (stopChan targetInformer))
      end
  | Err _ => mret tt
  end.

(** Removes the cluster from federated informer. *)
Definition deleteCluster (cluster : FederatedCluster) : M unit :=
  f ← get;
  let name := Name (Meta cluster) in
  match targetInformers f !! name with
  | Some targetInformer => close (stopChan targetInformer)
  | None => mret tt
  end;;
  modify (fun f => set_targetInformers (delete name (targetInformers f)) f);;
  modify (fun f => set_clusterClients (delete name (clusterClients f)) f);;
  emit (EvRemove name).

(** Synced returns true if the view is synced (for the first time) *)
Definition ClustersSynced (f : federatedInformerImpl) : bool :=
  cache.HasSynced (controller (clusterInformer f)).

(** ** The federated store *)

(** An object with an origin information. *)
Record FederatedObject : Type := {
  Object : option Item;
  ClusterName : string
}.

Module FederatedStore.

Fixpoint List_values (clusterName : string) (values : list Item)
  (acc : list FederatedObject) : list FederatedObject :=
  match values with
  | [] => acc
  | value :: rest =>
      List_values clusterName rest
        (acc ++ [{| Object := Some value; ClusterName := clusterName |}])
  end.

Fixpoint List_loop (entries : list (string * informer))
  (acc : list FederatedObject) : list FederatedObject :=
  match entries with
  | [] => acc
  | (clusterName, targetInformer) :: rest =>
      List_loop rest (List_values clusterName (cache.List (store targetInformer)) acc)
  end.

(** Returns all items in the store.  Go ranges over the map in an order of
    its choosing: [order] is that order. *)
Definition List_in (order : list (string * informer))
  : list FederatedObject * option error :=
  (List_loop order [], None).

(** Returns all items in the given cluster. *)
Definition ListFromCluster (f : federatedInformerImpl) (clusterName : string)
  : list Item * option error :=
  let result := [] in
  match targetInformers f !! clusterName with
  | Some targetInformer => (result ++ cache.List (store targetInformer), None)
  | None => (result, None)
  end.

(** GetByKey returns the item stored under the given key in the specified
    cluster (if exist). *)
Definition GetByKey (f : federatedInformerImpl) (clusterName key : string)
  : option Item * bool * option error :=
  match targetInformers f !! clusterName with
  | Some targetInformer => cache.GetByKey (store targetInformer) key
  | None => (None, false, Some (Errorf ("cluster " +:+ clusterName +:+ " not found")))
  end.

(** The loop of GetFromAllClusters; the returned slice is [None] for Go's
    nil. *)
Fixpoint GetFromAllClusters_loop (entries : list (string * informer))
  (key : string) (acc : list FederatedObject)
  : option (list FederatedObject) * option error :=
  match entries with
  | [] => (Some acc, None)
  | (clusterName, targetInformer) :: rest =>
      match cache.GetByKey (store targetInformer) key with
      | (_, _, Some err) => (None, Some err)
      | (value, true, None) =>
          GetFromAllClusters_loop rest key
            (acc ++ [{| Object := value; ClusterName := clusterName |}])
      | (_, false, None) => GetFromAllClusters_loop rest key acc
      end
  end.

(** Returns the items stored under the given key in all clusters, ranging
    over the map in the order [order]. *)
Definition GetFromAllClusters_in (order : list (string * informer))
  (key : string) : option (list FederatedObject) * option error :=
  GetFromAllClusters_loop order key [].

Definition GetFromAllClusters (f : federatedInformerImpl) (key : string)
  : option (list FederatedObject) * option error :=
  GetFromAllClusters_in (map_to_list (targetInformers f)) key.

(** GetKeyFor returns the key under which the item would be put in the
    store. *)
Definition GetKeyFor (item : Item) : string :=
  let '(key, _) := cache.DeletionHandlingMetaNamespaceKeyFunc item in
  key.

Fixpoint ClustersSynced_collect (m : gmap string informer)
  (clusters : list FederatedCluster) (informersToCheck : list informer)
  : bool * list informer :=
  match clusters with
  | [] => (true, informersToCheck)
  | cluster :: rest =>
      match m !! Name (Meta cluster) with
      | Some targetInformer =>
          ClustersSynced_collect m rest (informersToCheck ++ [targetInformer])
      | None => (false, [])
      end
  end.

Fixpoint ClustersSynced_check (informersToCheck : list informer) : bool :=
  match informersToCheck with
  | [] => true
  | informerToCheck :: rest =>
      if negb (cache.HasSynced (controller informerToCheck)) then false
      else ClustersSynced_check rest
  end.

(** Checks whether stores for all clusters form the lists (and only these)
    are there and are synced. *)
Definition ClustersSynced (f : federatedInformerImpl)
  (clusters : list FederatedCluster) : bool :=
  let '(okSoFar, informersToCheck) :=
    if negb (size (targetInformers f) =? length clusters)%nat
    then (false, [])
    else ClustersSynced_collect (targetInformers f) clusters [] in
  if negb okSoFar then false
  else ClustersSynced_check informersToCheck.

Definition ClusterSynced (f : federatedInformerImpl) (clusterName : string)
  : bool :=
  match targetInformers f !! clusterName with
  | Some targetInformer => cache.HasSynced (controller targetInformer)
  | None => false
  end.

End FederatedStore.

(** ** The cluster lifecycle dispatcher *)

(** The lifecycle callbacks are the caller's code; what matters here is
    whether each one is nil.  An invocation is recorded in the log. *)
Record ClusterLifecycleHandlerFuncs : Type := {
  ClusterAvailable : bool;
  ClusterUnavailable : bool
}.

Definition getClusterData (name : string) : M (list Item) :=
  emit (EvSnapshot name);;
  f ← get;
  match FederatedStore.ListFromCluster f name with
  | (_, Some _) => mret []
  | (data, None) => mret data
  end.

Definition when (b : bool) (m : M unit) : M unit :=
  if b then m else mret tt.

Definition DeleteFunc (clusterLifecycle : ClusterLifecycleHandlerFuncs)
  (old : Item) : M unit :=
  match old with
  | ItemCluster oldCluster =>
      data ← (if ClusterUnavailable clusterLifecycle
              then getClusterData (Name (Meta oldCluster))
              else mret []);
      deleteCluster oldCluster;;
      when (ClusterUnavailable clusterLifecycle)
        (emit (EvClusterUnavailable oldCluster data))
  | _ => mret tt
  end.

Definition AddFunc (clusterLifecycle : ClusterLifecycleHandlerFuncs)
  (cur : Item) : M unit :=
  match cur with
  | ItemCluster curCluster =>
      if IsClusterReady (Status curCluster) then
        addCluster curCluster;;
        when (ClusterAvailable clusterLifecycle)
          (emit (EvClusterAvailable curCluster))
      else mret tt
  | _ =>
      (* the failed assertion leaves curCluster nil, and the log line reads
         curCluster.Name *)
      panic "invalid memory address or nil pointer dereference"
  end.

(** The condition of the second branch of UpdateFunc. *)
Definition materiallyChanged (oldCluster curCluster : FederatedCluster) : bool :=
  negb (Bool.eqb (IsClusterReady (Status oldCluster))
                 (IsClusterReady (Status curCluster)))
  || negb (bool_decide (Spec oldCluster = Spec curCluster))
  || negb (bool_decide (Labels (Meta oldCluster) = Labels (Meta curCluster)))
  || negb (bool_decide (Annotations (Meta oldCluster) = Annotations (Meta curCluster))).

Definition UpdateFunc (clusterLifecycle : ClusterLifecycleHandlerFuncs)
  (old cur : Item) : M unit :=
  match old, cur with
  | ItemCluster oldCluster, ItemCluster curCluster =>
      if bool_decide (DeletionTimestamp (Meta oldCluster) = None)
         && negb (bool_decide (DeletionTimestamp (Meta curCluster) = None))
      then
        if ClusterUnavailable clusterLifecycle then
          data ← getClusterData (Name (Meta oldCluster));
          emit (EvClusterUnavailable oldCluster data)
        else mret tt
      else if materiallyChanged oldCluster curCluster then
        data ← (if ClusterUnavailable clusterLifecycle
                then getClusterData (Name (Meta oldCluster))
                else mret []);
        deleteCluster oldCluster;;
        when (ClusterUnavailable clusterLifecycle)
          (emit (EvClusterUnavailable oldCluster data));;
        if IsClusterReady (Status curCluster) then
          addCluster curCluster;;
          when (ClusterAvailable clusterLifecycle)
            (emit (EvClusterAvailable curCluster))
        else mret tt
      else mret tt
  | _, _ => mret tt
  end.

(** ** Helpers of neighbouring packages *)

Module common.
Record QualifiedName : Type := {
  Namespace : string;
  Name : string
}.

(** Modelled from the spec: [QualifiedName.String] lives in
    [pkg/controllers/common], which is not part of the sources at hand.
    The spec calls the qualified name a namespace and name composite used
    as the lookup key; the composite is the one of the mirror's keys. *)
Definition String (n : QualifiedName) : string :=
  if (String.length (Namespace n) =? 0)%nat then Name n
  else Namespace n +:+ "/" +:+ Name n.
End common.

Module managedlabel.
Definition ManagedByKubeAdmiralLabelKey : string := "kubeadmiral.io/managed".
Definition ManagedByKubeAdmiralLabelValue : string := "true".

(** Modelled from the spec: [HasManagedLabel] lives in
    [pkg/controllers/util/managedlabel], which is not part of the sources
    at hand.  The spec speaks of a required management marker on the
    object; the marker is a label of the object. *)
Definition HasManagedLabel (obj : Unstructured) : bool :=
  match Labels (UMeta obj) with
  | None => false
  | Some labels =>
      bool_decide (labels !! ManagedByKubeAdmiralLabelKey
                   = Some ManagedByKubeAdmiralLabelValue)
  end.
End managedlabel.

Module schema.
Record APIResource : Type := {
  Group : string;
  Version : string;
  ResourceKind : string
}.

(** [gvk.GroupVersion().String()] *)
Definition GroupVersionString (r : APIResource) : string :=
  if (String.length (Group r) =? 0)%nat then Version r
  else Group r +:+ "/" +:+ Version r.
End schema.

(** ** The client cache and the direct-fetch helper *)

Section DirectFetch.

(** [generic.New]: builds a client from a configuration. *)
Variable generic_New : Config -> result generic.Client.

(** GetClientForCluster returns a client for the cluster, if present. *)
Definition GetClientForCluster (clusterName : string)
  : M (option generic.Client * option error) :=
  f ← get;
  match clusterClients f !! clusterName with
  | Some client => mret (Some client, None)
  | None =>
      match getConfigForClusterUnlocked f clusterName with
      | Err err => mret (None, Some (Wrap "Client creation failed" err))
      | Ok config =>
          match generic_New config with
          | Err err => mret (None, Some err)
          | Ok client =>
              modify (fun f =>
                set_clusterClients (<[clusterName := client]> (clusterClients f)) f);;
              mret (Some client, None)
          end
      end
  end.

Definition emptyMeta : ObjectMeta :=
  {| Name := ""; Namespace := ""; DeletionTimestamp := None;
     Labels := None; Annotations := None |}.

(** GetClusterObject first attempts to get the object from the federated
    informer with the given key.  However, if the cache for the cluster is
    not synced, it will send a GET request to the cluster's apiserver to
    retrieve the object directly. *)
Definition GetClusterObject (clusterName : string)
  (qualifedName : common.QualifiedName) (apiResource : schema.APIResource)
  : M (option Unstructured * bool * option error) :=
  f ← get;
  if FederatedStore.ClusterSynced f clusterName then
    match FederatedStore.GetByKey f clusterName (common.String qualifedName) with
    | (_, exists_, Some err) => mret (None, exists_, Some err)
    | (_, false, None) => mret (None, false, None)
    | (clusterObj, true, None) =>
        match clusterObj with
        | Some (ItemUnstructured u) => mret (Some u, true, None)
        | _ => panic "interface conversion: not *unstructured.Unstructured"
        end
    end
  else
    r ← GetClientForCluster clusterName;
    match r with
    | (_, Some err) =>
        mret (None, false,
              Some (Wrap ("failed to get client for cluster " +:+ clusterName) err))
    | (None, None) => panic "invalid memory address or nil pointer dereference"
    | (Some client, None) =>
        let clusterObj :=
          {| Kind := schema.ResourceKind apiResource;
             APIVersion := schema.GroupVersionString apiResource;
             UMeta := emptyMeta |} in
        match generic.Get client clusterObj
                (common.Namespace qualifedName) (common.Name qualifedName) with
        | (clusterObj, Some err) =>
            (* the NotFound error includes the resource does not exist and
               the api path does not exist *)
            if apierrors.IsNotFound err then mret (None, false, None)
            else mret (None, false,
                       Some (Wrap ("failed to get object "
                                   +:+ common.String qualifedName
                                   +:+ " with client") err))
        | (clusterObj, None) =>
            if negb (managedlabel.HasManagedLabel clusterObj)
            then mret (None, false, None)
            else mret (Some clusterObj, true, None)
        end
    end.

End DirectFetch.

(** ** Running the methods *)

Ltac run :=
  repeat (progress (unfold mbind, M_bind, mret, M_ret, get, modify, emit, when,
                    make_chan, panic in *; cbn [set_log set_chans set_targetInformers
                    set_clusterClients set_clusterInformer clusterInformer
                    targetInformerFactory targetInformers configFactory
                    clusterClients chans log] in *)).

(** NewFederatedInformer's initial state: both maps empty, the registry
    informer's stop channel nil until Start. *)
Definition newFederatedInformerImpl
  (registry : cache.Store) (registryController : cache.Controller)
  (factory : FederatedCluster -> Config -> result (cache.Store * cache.Controller))
  (config : FederatedCluster -> result Config) : federatedInformerImpl :=
  {| clusterInformer :=
       {| controller := registryController; store := registry; stopChan := None |};
     targetInformerFactory := factory;
     targetInformers := ∅;
     configFactory := config;
     clusterClients := ∅;
     chans := [];
     log := [] |}.

(** *** Concrete collaborators for the examples *)

(** A store that behaves like a thread-safe cache store over the given
    keyed objects. *)
Fixpoint lookupKey (objs : list (string * Item)) (key : string)
  : option Item * bool * option error :=
  match objs with
  | [] => (None, false, None)
  | (k, v) :: rest =>
      if String.eqb k key then (Some v, true, None) else lookupKey rest key
  end.

Definition storeOf (objs : list (string * Item)) : cache.Store :=
  {| cache.List := objs.*2; cache.GetByKey := lookupKey objs |}.

Definition condition (t s : string) : ClusterCondition :=
  {| condType := t; condStatus := s |}.

Definition mkCluster (name : string) (conds : list ClusterCondition)
  : FederatedCluster :=
  {| Meta := {| Name := name; Namespace := ""; DeletionTimestamp := None;
                Labels := None; Annotations := None |};
     Spec := {| APIEndpoint := "https://" +:+ name; Insecure := false;
                SecretRef := name +:+ "-secret" |};
     Status := {| Conditions := conds |} |}.

Definition exampleConfig (c : FederatedCluster) : result Config :=
  Ok {| Host := APIEndpoint (Spec c); UserAgent := "kubeadmiral" |}.

Definition exampleFactory (synced : bool) (objs : list (string * Item))
  (_ : FederatedCluster) (_ : Config)
  : result (cache.Store * cache.Controller) :=
  Ok (storeOf objs, {| cache.HasSynced := synced |}).

Definition bothCallbacks : ClusterLifecycleHandlerFuncs :=
  {| ClusterAvailable := true; ClusterUnavailable := true |}.

(** *** A running example: one registered member cluster *)

Definition joinedReady : list ClusterCondition :=
  [condition fedcorev1a1.ClusterJoined corev1.ConditionTrue;
   condition fedcorev1a1.ClusterReady corev1.ConditionTrue].

Definition member1 : FederatedCluster := mkCluster "member-1" joinedReady.

Definition webObject (labels : option (gmap string string)) : Unstructured :=
  {| Kind := "Deployment"; APIVersion := "apps/v1";
     UMeta := {| Name := "web"; Namespace := "default"; DeletionTimestamp := None;
                 Labels := labels; Annotations := None |} |}.

Definition member1Mirror : list (string * Item) :=
  [("default/web", ItemUnstructured (webObject None))].

(** The informer right after construction, with [member1] in the registry. *)
Definition fresh (synced : bool) : federatedInformerImpl :=
  newFederatedInformerImpl
    (storeOf [("member-1", ItemCluster member1)]) {| cache.HasSynced := true |}
    (exampleFactory synced member1Mirror) exampleConfig.

(** The state a method leaves behind (the state it started from, had it
    panicked). *)
Definition exec {A : Type} (m : M A) (f : federatedInformerImpl)
  : federatedInformerImpl :=
  match m f with
  | Done _ f' => f'
  | Panic _ => f
  end.

(** [member1] has been added: its handle is installed on channel 0. *)
Definition withMember1 (synced : bool) : federatedInformerImpl :=
  exec (AddFunc bothCallbacks (ItemCluster member1)) (fresh synced).

Definition setDeletionTimestamp (t : option Z) (c : FederatedCluster)
  : FederatedCluster :=
  {| Meta := {| Name := Name (Meta c); Namespace := Namespace (Meta c);
                DeletionTimestamp := t;
                Labels := Labels (Meta c); Annotations := Annotations (Meta c) |};
     Spec := Spec c; Status := Status c |}.

(** A cluster that is ready but has not joined. *)
Definition readyOnly : FederatedCluster :=
  mkCluster "member-2" [condition fedcorev1a1.ClusterReady corev1.ConditionTrue].

(** The informer right after construction, with only [c] in the registry. *)
Definition freshWith (c : FederatedCluster) : federatedInformerImpl :=
  newFederatedInformerImpl
    (storeOf [(Name (Meta c), ItemCluster c)]) {| cache.HasSynced := true |}
    (exampleFactory true member1Mirror) exampleConfig.

(** A second member cluster, and a state with two handles: the one of
    [member1] has synced, the one of [member3] has not. *)
Definition member3 : FederatedCluster := mkCluster "member-3" joinedReady.

Definition twoHandles : federatedInformerImpl :=
  set_targetInformers
    (<["member-3" := {| controller := {| cache.HasSynced := false |};
                        store := storeOf [];
                        stopChan := Some 1%nat |}]>
       (targetInformers (withMember1 true)))
    (set_chans [false; false] (withMember1 true)).

(** The entry that one target informer contributes to GetFromAllClusters:
    its object under the key, tagged with the cluster name, if its mirror
    has the key. *)
Definition hit (key : string) (e : string * informer) : list FederatedObject :=
  match cache.GetByKey (store e.2) key with
  | (value, true, _) => [{| Object := value; ClusterName := e.1 |}]
  | (_, false, _) => []
  end.

Definition hits (key : string) (entries : list (string * informer))
  : list FederatedObject :=
  flat_map (hit key) entries.

(** The stop channel of the handle recorded under [name], if any. *)
Definition handleChan (f : federatedInformerImpl) (name : string) : Chan :=
  match targetInformers f !! name with
  | Some ti => stopChan ti
  | None => None
  end.

(** The handle recorded under [name], if any, has a channel that is still
    open. *)
Definition handle_open (f : federatedInformerImpl) (name : string) : Prop :=
  ∀ ti, targetInformers f !! name = Some ti →
        ∃ c, stopChan ti = Some c ∧ chans f !! c = Some false.

(** What addCluster gets from the configuration factory and the target
    informer factory: the store and controller of the new handle, or nothing
    when either of them fails. *)
Definition canInstall (f : federatedInformerImpl) (cluster : FederatedCluster)
  : option (cache.Store * cache.Controller) :=
  match getConfigForClusterUnlocked f (Name (Meta cluster)) with
  | Ok config =>
      match targetInformerFactory f cluster config with
      | Ok p => Some p
      | Err _ => None
      end
  | Err _ => None
  end.

(** The registry informer and the two factories are the same in both
    states. *)
Definition same_env (f f' : federatedInformerImpl) : Prop :=
  clusterInformer f' = clusterInformer f
  ∧ configFactory f' = configFactory f
  ∧ targetInformerFactory f' = targetInformerFactory f.

(** The condition of the first branch of UpdateFunc. *)
Definition newlyMarkedForDeletion (oldCluster curCluster : FederatedCluster) : bool :=
  bool_decide (DeletionTimestamp (Meta oldCluster) = None)
  && negb (bool_decide (DeletionTimestamp (Meta curCluster) = None)).

(** First position of an event of a given kind in a log. *)
Fixpoint firstIndex (p : Event → bool) (l : list Event) : option nat :=
  match l with
  | [] => None
  | ev :: rest => if p ev then Some 0%nat else S <$> firstIndex p rest
  end.

Definition isUnavailable (ev : Event) : bool :=
  match ev with EvClusterUnavailable _ _ => true | _ => false end.

Definition isDestroy (ev : Event) : bool :=
  match ev with EvClose _ | EvRemove _ => true | _ => false end.

(** The channel heap once the handle recorded under [name], if any, has
    been closed. *)
Definition closedHandle (f : federatedInformerImpl) (name : string) : list bool :=
  match handleChan f name with
  | Some c => <[c:=true]> (chans f)
  | None => chans f
  end.

(** The log entries of the four steps of the recreate branch of UpdateFunc,
    in the order in which the code takes them. *)
Definition snapshotStep (cl : ClusterLifecycleHandlerFuncs) (name : string)
  : list Event :=
  if ClusterUnavailable cl then [EvSnapshot name] else [].

Definition destroyStep (f : federatedInformerImpl) (name : string) : list Event :=
  match handleChan f name with
  | Some c => [EvClose c]
  | None => []
  end ++ [EvRemove name].

Definition unavailableStep (cl : ClusterLifecycleHandlerFuncs)
  (f : federatedInformerImpl) (oldCluster : FederatedCluster) : list Event :=
  if ClusterUnavailable cl
  then [EvClusterUnavailable oldCluster
          (FederatedStore.ListFromCluster f (Name (Meta oldCluster))).1]
  else [].

Definition availableStep (cl : ClusterLifecycleHandlerFuncs)
  (f : federatedInformerImpl) (curCluster : FederatedCluster) : list Event :=
  if IsClusterReady (Status curCluster) then
    match canInstall f curCluster with
    | Some _ => [EvInstall (Name (Meta curCluster)) (length (chans f));
                 EvRun (Some (length (chans f)))]
    | None => []
    end ++ (if ClusterAvailable cl then [EvClusterAvailable curCluster] else [])
  else [].

(** [member1] after it has lost readiness. *)
Definition member1Unready : FederatedCluster :=
  mkCluster "member-1"
    [condition fedcorev1a1.ClusterJoined corev1.ConditionTrue;
     condition fedcorev1a1.ClusterReady corev1.ConditionFalse].

(** [member1] with a label added. *)
Definition member1Relabelled : FederatedCluster :=
  {| Meta := {| Name := "member-1"; Namespace := ""; DeletionTimestamp := None;
                Labels := Some {["region" := "eu"]}; Annotations := None |};
     Spec := Spec member1; Status := Status member1 |}.

(** A member cluster's API server holding the given objects under their
    namespace and name composite. *)
Definition clientOf (remote : list (string * Unstructured)) : generic.Client :=
  {| generic.Get := λ obj ns name,
       match list_find (λ e, e.1 = ns +:+ "/" +:+ name) remote with
       | Some (_, (_, u)) => (u, None)
       | None => (obj, Some (StatusError apierrors.StatusReasonNotFound
                               apierrors.StatusNotFound "not found"))
       end |}.

Definition managedLabels : option (gmap string string) :=
  Some {[managedlabel.ManagedByKubeAdmiralLabelKey
         := managedlabel.ManagedByKubeAdmiralLabelValue]}.

(** The remote side of the examples: [default/web] without the managed
    label, [default/db] with it. *)
Definition exampleNew (_ : Config) : result generic.Client :=
  Ok (clientOf [("default/web", webObject None);
                ("default/db",
                 {| Kind := "Deployment"; APIVersion := "apps/v1";
                    UMeta := {| Name := "db"; Namespace := "default";
                                DeletionTimestamp := None;
                                Labels := managedLabels;
                                Annotations := None |} |})]).

Definition deployments : schema.APIResource :=
  {| schema.Group := "apps"; schema.Version := "v1";
     schema.ResourceKind := "Deployment" |}.

Definition defaultWeb : common.QualifiedName :=
  {| common.Namespace := "default"; common.Name := "web" |}.

(** The object GetClusterObject hands to the client to be filled. *)
Definition requestObject (apiResource : schema.APIResource) : Unstructured :=
  {| Kind := schema.ResourceKind apiResource;
     APIVersion := schema.GroupVersionString apiResource;
     UMeta := emptyMeta |}.

(** The invariant of the handle map: every recorded handle has an open stop
    channel, and no two names share a channel. *)
Definition handles_ok (f : federatedInformerImpl) : Prop :=
  (∀ name, handle_open f name)
  ∧ (∀ n1 n2 t1 t2,
       targetInformers f !! n1 = Some t1 → targetInformers f !! n2 = Some t2 →
       stopChan t1 = stopChan t2 → n1 = n2).

(** A method that, started in a state with the invariant, returns (does not
    panic) and keeps the invariant. *)
Definition safe {A : Type} (m : M A) : Prop :=
  ∀ f, handles_ok f → ∃ a f', m f = Done a f' ∧ handles_ok f'.

(** The registry events on cluster objects. *)
Inductive RegistryEvent : Type :=
| Added (cur : FederatedCluster)
| Updated (old cur : FederatedCluster)
| Deleted (old : FederatedCluster).

Definition dispatch (cl : ClusterLifecycleHandlerFuncs) (ev : RegistryEvent)
  : M unit :=
  match ev with
  | Added cur => AddFunc cl (ItemCluster cur)
  | Updated old cur => UpdateFunc cl (ItemCluster old) (ItemCluster cur)
  | Deleted old => DeleteFunc cl (ItemCluster old)
  end.

Fixpoint dispatchAll (cl : ClusterLifecycleHandlerFuncs)
  (evs : list RegistryEvent) : M unit :=
  match evs with
  | [] => mret tt
  | ev :: rest => dispatch cl ev;; dispatchAll cl rest
  end.

(** GetCluster returns the cluster with the given name, if found. *)
Definition GetCluster (f : federatedInformerImpl) (name : string)
  : option FederatedCluster * bool * option error :=
  getClusterUnlocked f name.

(** GetReadyCluster returns the cluster with the given name, if found and
    ready. *)
Definition GetReadyCluster (f : federatedInformerImpl) (name : string)
  : option FederatedCluster * bool * option error :=
  getReadyClusterUnlocked f name.

(** A registry store that holds a wrongly typed object beside [member1]. *)
Definition corruptRegistry : federatedInformerImpl :=
  newFederatedInformerImpl
    (storeOf [("member-1", ItemCluster member1); ("stray", ItemOther "ConfigMap")])
    {| cache.HasSynced := true |}
    (exampleFactory true member1Mirror) exampleConfig.

(** A registry with a ready and joined, a ready but not joined and a joined
    but not ready cluster. *)
Definition mixedRegistry : federatedInformerImpl :=
  newFederatedInformerImpl
    (storeOf [("member-1", ItemCluster member1);
              ("member-2", ItemCluster readyOnly);
              ("member-1b", ItemCluster member1Unready)])
    {| cache.HasSynced := true |}
    (exampleFactory true member1Mirror) exampleConfig.

(** [withMember1] with a client for member-1 already in the cache. *)
Definition withCachedClient : federatedInformerImpl :=
  set_clusterClients {["member-1" := clientOf []]} (withMember1 true).

(** The cluster names a registry event mentions. *)
Definition eventNames (ev : RegistryEvent) : list string :=
  match ev with
  | Added cur => [Name (Meta cur)]
  | Updated old cur => [Name (Meta old); Name (Meta cur)]
  | Deleted old => [Name (Meta old)]
  end.

(** A method that leaves the handle and the cached client of [name] as
    they are. *)
Definition keeps {A : Type} (name : string) (m : M A) : Prop :=
  ∀ f a f', m f = Done a f' →
            targetInformers f' !! name = targetInformers f !! name
            ∧ clusterClients f' !! name = clusterClients f !! name.

(** The informer is running on the registry channel [c0]: the handle map
    is in order, [c0] is the registry informer's stop channel, it is open,
    and no handle uses it. *)
Definition running (c0 : nat) (f : federatedInformerImpl) : Prop :=
  handles_ok f
  ∧ stopChan (clusterInformer f) = Some c0
  ∧ chans f !! c0 = Some false
  ∧ (∀ name ti, targetInformers f !! name = Some ti → stopChan ti ≠ Some c0).



(** An object of the mirror of cluster [name], as List tags it. *)
Definition tagged (name : string) (value : Item) : FederatedObject :=
  {| Object := Some value; ClusterName := name |}.

(** What a method returns, if it returns. *)
Definition returned {A : Type} (o : Outcome A) : option A :=
  match o with
  | Done a _ => Some a
  | Panic _ => None
  end.

(** A qualified name that the mirror of member-1 does not hold. *)
Definition defaultDb : common.QualifiedName :=
  {| common.Namespace := "default"; common.Name := "db" |}.

(** A qualified name that neither the mirror nor the remote side holds. *)
Definition defaultCache : common.QualifiedName :=
  {| common.Namespace := "default"; common.Name := "cache" |}.

(** A configuration factory that fails for every cluster. *)
Definition failingConfig (c : FederatedCluster) : result Config :=
  Err (Errorf ("Unable to load configuration for cluster " +:+ Name (Meta c))).

(** [withMember1] whose configuration factory has started to fail. *)
Definition withMember1Failing : federatedInformerImpl :=
  {| clusterInformer := clusterInformer (withMember1 true);
     targetInformerFactory := targetInformerFactory (withMember1 true);
     targetInformers := targetInformers (withMember1 true);
     configFactory := failingConfig;
     clusterClients := clusterClients (withMember1 true);
     chans := chans (withMember1 true);
     log := log (withMember1 true) |}.

(** A client whose Get fails with the given error. *)
Definition clientFailing (err : error) : generic.Client :=
  {| generic.Get := λ obj _ _, (obj, Some err) |}.

(** A status error without a reason, as a server that is not an API server
    of this kind answers for a missing path. *)
Definition plain404 : error :=
  StatusError apierrors.StatusReasonUnknown apierrors.StatusNotFound
    "the server could not find the requested resource".

(** Two add events for the same cluster. *)
Definition twoAdds : list RegistryEvent := [Added member1; Added member1].

(** * Properties *)

(** ** Missing handles in the federated store *)

(** C9: for a cluster name without an active target informer,
    ListFromCluster returns the empty collection and a nil error, while
    GetByKey returns an error (and neither an item nor "exists"). *)
Theorem missing_handle_list_empty_get_error
  (f : federatedInformerImpl) (clusterName key : string) :
  targetInformers f !! clusterName = None ->
  FederatedStore.ListFromCluster f clusterName = ([], None)
  ∧ ∃ err, FederatedStore.GetByKey f clusterName key = (None, false, Some err).
Proof.
  intros Hnone. unfold FederatedStore.ListFromCluster, FederatedStore.GetByKey.
  rewrite Hnone. split; [reflexivity | eauto].
Qed.

Lemma missing_handle_list_empty_get_error_witness :
  let f := newFederatedInformerImpl (storeOf []) {| cache.HasSynced := true |}
             (exampleFactory true []) exampleConfig in
  FederatedStore.ListFromCluster f "member-1" = ([], None)
  ∧ ∃ err, FederatedStore.GetByKey f "member-1" "default/web" = (None, false, Some err).
Proof.
  intros f. apply (missing_handle_list_empty_get_error f "member-1" "default/web").
  reflexivity.
Defined.

(** ** Keys *)

(** C10: GetKeyFor returns a plain string; when the deletion-handling key
    function fails on an item, the error is dropped and the empty string is
    returned, which is also the key of an item whose key derivation
    succeeds, so the two cannot be told apart by the caller. *)
Theorem GetKeyFor_drops_error (item : Item) (err : error) :
  (cache.DeletionHandlingMetaNamespaceKeyFunc item).2 = Some err ->
  FederatedStore.GetKeyFor item = ""
  ∧ ∃ other : Item,
      (cache.DeletionHandlingMetaNamespaceKeyFunc other).2 = None
      ∧ FederatedStore.GetKeyFor other = FederatedStore.GetKeyFor item.
Proof.
  intros Herr.
  assert (Hkey : FederatedStore.GetKeyFor item = "").
  { unfold FederatedStore.GetKeyFor.
    destruct item as [c|u|k o|k|d]; cbn in *;
      repeat case_match; simplify_eq/=; try reflexivity. }
  split; [exact Hkey |].
  exists (ItemExplicitKey ""). rewrite Hkey. split; reflexivity.
Qed.

Lemma GetKeyFor_drops_error_witness :
  FederatedStore.GetKeyFor (ItemOther "42") = ""
  ∧ ∃ other : Item,
      (cache.DeletionHandlingMetaNamespaceKeyFunc other).2 = None
      ∧ FederatedStore.GetKeyFor other = FederatedStore.GetKeyFor (ItemOther "42").
Proof.
  apply (GetKeyFor_drops_error (ItemOther "42") (Errorf "object has no meta")).
  reflexivity.
Defined.

(** ** Marking a cluster for deletion *)

(** C6: an update event that newly sets the deletion marker leaves the
    target-informer map, the client cache, the channels and the registry
    informer as they were; all it does, and only when ClusterUnavailable is
    registered, is to take the snapshot and invoke ClusterUnavailable with
    it. *)
Theorem deletion_mark_keeps_handle
  (clusterLifecycle : ClusterLifecycleHandlerFuncs)
  (oldCluster curCluster : FederatedCluster) (f : federatedInformerImpl) :
  DeletionTimestamp (Meta oldCluster) = None ->
  DeletionTimestamp (Meta curCluster) ≠ None ->
  ∃ f',
    UpdateFunc clusterLifecycle (ItemCluster oldCluster) (ItemCluster curCluster) f
      = Done tt f'
    ∧ targetInformers f' = targetInformers f
    ∧ clusterClients f' = clusterClients f
    ∧ chans f' = chans f
    ∧ clusterInformer f' = clusterInformer f
    ∧ log f' =
        log f ++
        (if ClusterUnavailable clusterLifecycle
         then [EvSnapshot (Name (Meta oldCluster));
               EvClusterUnavailable oldCluster
                 (FederatedStore.ListFromCluster f (Name (Meta oldCluster))).1]
         else []).
Proof.
  intros Hold Hcur. unfold UpdateFunc.
  rewrite (bool_decide_eq_true_2 _ Hold), (bool_decide_eq_false_2 _ Hcur).
  cbn [andb negb].
  destruct (ClusterUnavailable clusterLifecycle).
  - unfold getClusterData. run.
    unfold FederatedStore.ListFromCluster.
    destruct (targetInformers f !! Name (Meta oldCluster)) as [ti|] eqn:Hti;
      cbn; rewrite ?Hti; cbn;
      (eexists; split; [reflexivity |]); cbn;
      rewrite <- ?app_assoc; repeat split; reflexivity.
  - run. exists f. rewrite app_nil_r. repeat split; reflexivity.
Qed.

Example withMember1_handle :
  stopChan <$> (targetInformers (withMember1 true) !! "member-1") = Some (Some 0%nat)
  ∧ chans (withMember1 true) = [false]
  ∧ log (withMember1 true)
    = [EvInstall "member-1" 0; EvRun (Some 0%nat); EvClusterAvailable member1].
Proof. vm_compute. repeat split; reflexivity. Qed.

Lemma deletion_mark_keeps_handle_witness :
  let f := withMember1 true in
  let cur := setDeletionTimestamp (Some 1698690000%Z) member1 in
  ∃ f',
    UpdateFunc bothCallbacks (ItemCluster member1) (ItemCluster cur) f = Done tt f'
    ∧ targetInformers f' = targetInformers f
    ∧ clusterClients f' = clusterClients f
    ∧ chans f' = chans f
    ∧ clusterInformer f' = clusterInformer f
    ∧ log f' =
        log f ++
        [EvSnapshot "member-1";
         EvClusterUnavailable member1
           (FederatedStore.ListFromCluster f "member-1").1].
Proof.
  intros f cur.
  apply (deletion_mark_keeps_handle bothCallbacks member1 cur f);
    [reflexivity | discriminate].
Defined.

(** ** Ready clusters of the registry view *)

Lemma getJoinedClusters_loop_spec (onlyReady : bool) (items : list Item) :
  ∀ acc : list FederatedCluster,
    (∀ item, item ∈ items → ∃ c, item = ItemCluster c) →
    ∃ l, getJoinedClusters_loop onlyReady items acc = Ok l
         ∧ ∀ c, c ∈ l ↔
                c ∈ acc
                ∨ (ItemCluster c ∈ items
                   ∧ IsClusterJoined (Status c) = true
                   ∧ (onlyReady = true → IsClusterReady (Status c) = true)).
Proof.
  induction items as [|item items IH]; intros acc Htyped.
  - exists acc. split; [reflexivity |]. intros c. split; [auto |].
    intros [?|[Hin _]]; [done |]. by apply elem_of_nil in Hin.
  - destruct (Htyped item) as [cl ->]; [left |].
    assert (Htl : ∀ item, item ∈ items → ∃ c, item = ItemCluster c)
      by (intros; apply Htyped; by right).
    cbn [getJoinedClusters_loop].
    destruct (IsClusterJoined (Status cl)
              && (negb onlyReady || IsClusterReady (Status cl))) eqn:Hsel.
    + destruct (IH (acc ++ [cl]) Htl) as (l & -> & Hl).
      exists l. split; [reflexivity |]. intros c. rewrite Hl.
      rewrite elem_of_app, list_elem_of_singleton, elem_of_cons.
      apply andb_true_iff in Hsel as [Hj Hr].
      split.
      * intros [[?| ->]|(? & ? & ?)]; [by left | | right; by eauto].
        right. split; [by left |]. split; [done |].
        intros ->. by destruct (IsClusterReady (Status cl)).
      * intros [?|([Heq|?] & ? & ?)]; [by left; left | | by right].
        left; right. congruence.
    + destruct (IH acc Htl) as (l & -> & Hl).
      exists l. split; [reflexivity |]. intros c. rewrite Hl.
      rewrite elem_of_cons. split.
      * intros [?|(? & ? & ?)]; [by left | right; by eauto].
      * intros [?|([Heq|?] & Hj & Hr)]; [by left | | by right].
        exfalso. injection Heq as ->. rewrite Hj in Hsel.
        destruct onlyReady; cbn in Hsel; [|done].
        rewrite Hr in Hsel; done.
Qed.

Lemma addCluster_total (cluster : FederatedCluster) (f : federatedInformerImpl) :
  ∃ f', addCluster cluster f = Done tt f'
        ∧ clusterInformer f' = clusterInformer f
        ∧ configFactory f' = configFactory f
        ∧ targetInformerFactory f' = targetInformerFactory f
        ∧ clusterClients f' = clusterClients f.
Proof.
  unfold addCluster. run.
  destruct (getConfigForClusterUnlocked f (Name (Meta cluster))) as [config|e].
  - destruct (targetInformerFactory f cluster config) as [[st ctl]|e'].
    + run. eexists. split; [reflexivity |]. repeat split; reflexivity.
    + exists f. repeat split; reflexivity.
  - exists f. repeat split; reflexivity.
Qed.

(** X28: once a cluster A whose Ready and Joined conditions are
    both true has been added and the registry view (which holds cluster
    objects only) lists A, GetReadyClusters returns a list that contains
    A. *)
Theorem ready_joined_cluster_is_listed
  (clusterLifecycle : ClusterLifecycleHandlerFuncs)
  (A : FederatedCluster) (f : federatedInformerImpl) :
  IsClusterReady (Status A) = true ->
  IsClusterJoined (Status A) = true ->
  (∀ item, item ∈ cache.List (store (clusterInformer f)) →
           ∃ c, item = ItemCluster c) ->
  ItemCluster A ∈ cache.List (store (clusterInformer f)) ->
  ∃ f' l,
    AddFunc clusterLifecycle (ItemCluster A) f = Done tt f'
    ∧ GetReadyClusters f' = Ok l
    ∧ A ∈ l.
Proof.
  intros Hready Hjoined Htyped Hin.
  unfold AddFunc. rewrite Hready.
  destruct (addCluster_total A f) as (f1 & Hadd & Hci & _).
  assert (Hrun : ∃ f', (addCluster A;;
                        when (ClusterAvailable clusterLifecycle)
                          (emit (EvClusterAvailable A))) f = Done tt f'
                       ∧ clusterInformer f' = clusterInformer f).
  { run. rewrite Hadd. destruct (ClusterAvailable clusterLifecycle);
      eexists; (split; [reflexivity | exact Hci]). }
  destruct Hrun as (f' & -> & Hci').
  destruct (getJoinedClusters_loop_spec true _ [] Htyped) as (l & Hl & Hmem).
  exists f', l. split; [reflexivity |]. split.
  - unfold GetReadyClusters, getJoinedClusters. rewrite Hci'. exact Hl.
  - apply Hmem. right. auto.
Qed.

Lemma ready_joined_cluster_is_listed_witness :
  ∃ f' l,
    AddFunc bothCallbacks (ItemCluster member1) (fresh true) = Done tt f'
    ∧ GetReadyClusters f' = Ok l
    ∧ member1 ∈ l.
Proof.
  apply (ready_joined_cluster_is_listed bothCallbacks member1 (fresh true));
    [reflexivity | reflexivity | | left].
  intros item Hin. apply list_elem_of_singleton in Hin. eauto.
Defined.

(** The query at work: a registered cluster whose Ready condition is
    true but which has not joined is added (its handle is installed) and yet
    GetReadyClusters does not return it. *)
Lemma ready_unjoined_cluster_not_listed :
  IsClusterReady (Status readyOnly) = true
  ∧ ItemCluster readyOnly ∈ cache.List (store (clusterInformer (freshWith readyOnly)))
  ∧ ∃ f',
      AddFunc bothCallbacks (ItemCluster readyOnly) (freshWith readyOnly) = Done tt f'
      ∧ is_Some (targetInformers f' !! "member-2")
      ∧ GetReadyClusters f' = Ok []
      ∧ ¬ ∃ l, GetReadyClusters f' = Ok l ∧ readyOnly ∈ l.
Proof.
  split; [reflexivity |]. split; [left |].
  eexists. split; [vm_compute; reflexivity |].
  split; [vm_compute; eauto |].
  split; [reflexivity |].
  intros (l & Hl & Hin). vm_compute in Hl. injection Hl as <-.
  by apply elem_of_nil in Hin.
Qed.

(** ** Stopping *)

Lemma close_Done (ch : Chan) (f f' : federatedInformerImpl) :
  close ch f = Done tt f' →
  ∃ c, ch = Some c
       ∧ chans f !! c = Some false
       ∧ f' = set_log (log f ++ [EvClose c]) (set_chans (<[c:=true]> (chans f)) f).
Proof.
  unfold close. destruct ch as [c|]; [|discriminate].
  destruct (chans f !! c) as [[|]|] eqn:Hc; try discriminate.
  intros [= <-]. eauto.
Qed.

Lemma close_open (c : nat) (f : federatedInformerImpl) :
  chans f !! c = Some false →
  close (Some c) f
  = Done tt (set_log (log f ++ [EvClose c]) (set_chans (<[c:=true]> (chans f)) f)).
Proof. intros Hc. unfold close. by rewrite Hc. Qed.

Lemma closed_stays_closed (l : list bool) (c c' : nat) :
  l !! c = Some true → <[c':=true]> l !! c = Some true.
Proof.
  intros Hc. destruct (decide (c' = c)) as [->|Hne].
  - apply list_lookup_insert_eq. by eapply lookup_lt_Some.
  - by rewrite list_lookup_insert_ne.
Qed.

Lemma Stop_loop_Done (entries : list (string * informer)) :
  ∀ g g', Stop_loop entries g = Done tt g' →
    clusterInformer g' = clusterInformer g
    ∧ (∀ c, chans g !! c = Some true → chans g' !! c = Some true)
    ∧ targetInformers g' = foldl (λ m e, delete e.1 m) (targetInformers g) entries.
Proof.
  induction entries as [|[key inf] rest IH]; intros g g' Hrun.
  - injection Hrun as <-. auto.
  - cbn [Stop_loop] in Hrun. run.
    destruct (close (stopChan inf) g) as [[] g1|] eqn:Hclose; [|discriminate].
    apply close_Done in Hclose as (c & _ & _ & ->).
    apply IH in Hrun as (Hci & Hch & Hti). cbn in Hci, Hch, Hti.
    split; [exact Hci |]. split; [|exact Hti].
    intros c0 Hc0. apply Hch. by apply closed_stays_closed.
Qed.

(** C2: the claim does not hold of the code.  Whenever a first Stop has
    completed, a second Stop panics: it closes the registry informer's stop
    channel once more.  (The target informers' channels are not touched
    again, see [Stop_clears_targetInformers].) *)
Theorem second_Stop_panics (f f' : federatedInformerImpl) :
  Stop f = Done tt f' ->
  Stop f' = Panic "close of closed channel".
Proof.
  unfold Stop. run. intros Hrun.
  destruct (close (stopChan (clusterInformer f)) f) as [[] f1|] eqn:Hclose;
    [|discriminate].
  apply close_Done in Hclose as (c & Hchan & Hopen & ->).
  apply Stop_loop_Done in Hrun as (Hci & Hch & _). cbn in Hci, Hch.
  rewrite Hci, Hchan. unfold close.
  rewrite (Hch c); [reflexivity |].
  apply list_lookup_insert_eq. by eapply lookup_lt_Some.
Qed.

Lemma second_Stop_panics_witness :
  Stop (exec Stop (exec Start (withMember1 true)))
  = Panic "close of closed channel".
Proof.
  apply (second_Stop_panics (exec Start (withMember1 true))).
  vm_compute. reflexivity.
Defined.

Lemma foldl_delete_lookup (entries : list (string * informer)) :
  ∀ (m : gmap string informer) (k : string),
    foldl (λ m e, delete e.1 m) m entries !! k
    = if bool_decide (k ∈ entries.*1) then None else m !! k.
Proof.
  induction entries as [|[key inf] rest IH]; intros m k; cbn [foldl].
  - rewrite bool_decide_eq_false_2; [done | apply not_elem_of_nil].
  - rewrite IH. cbn [fmap list_fmap fst]. fold (fmap (M:=list) (@fst string informer)).
    destruct (decide (k = key)) as [->|Hne].
    + rewrite (bool_decide_eq_true_2 (key ∈ key :: rest.*1)) by left.
      case_bool_decide; [done | apply lookup_delete_eq].
    + rewrite lookup_delete_ne by done.
      repeat case_bool_decide; try done;
        exfalso; rewrite elem_of_cons in *; tauto.
Qed.

(** After a completed Stop no target informer is left in the map, so no
    later Stop or cluster deletion closes one of their channels again. *)
Lemma Stop_clears_targetInformers (f f' : federatedInformerImpl) :
  Stop f = Done tt f' → targetInformers f' = ∅.
Proof.
  unfold Stop. run. intros Hrun.
  destruct (close (stopChan (clusterInformer f)) f) as [[] f1|] eqn:Hclose;
    [|discriminate].
  apply close_Done in Hclose as (c & _ & _ & ->).
  apply Stop_loop_Done in Hrun as (_ & _ & Hti). cbn in Hti.
  apply map_eq. intros k. rewrite Hti, foldl_delete_lookup, lookup_empty.
  case_bool_decide as Hk; [done |].
  destruct (targetInformers f !! k) as [inf|] eqn:Hlk; [|done].
  exfalso. apply Hk. apply list_elem_of_fmap. exists (k, inf).
  split; [done |]. by apply elem_of_map_to_list.
Qed.

(** ** ClustersSynced of the federated store *)

Lemma ClustersSynced_collect_spec (m : gmap string informer)
  (clusters : list FederatedCluster) :
  ∀ acc : list informer,
    (Forall (λ c, is_Some (m !! Name (Meta c))) clusters
     ∧ ∃ found,
         FederatedStore.ClustersSynced_collect m clusters acc = (true, acc ++ found)
         ∧ ∀ ti, ti ∈ found ↔ ∃ c, c ∈ clusters ∧ m !! Name (Meta c) = Some ti)
    ∨ (¬ Forall (λ c, is_Some (m !! Name (Meta c))) clusters
       ∧ FederatedStore.ClustersSynced_collect m clusters acc = (false, [])).
Proof.
  induction clusters as [|c rest IH]; intros acc.
  - left. split; [constructor |]. exists []. rewrite app_nil_r.
    split; [reflexivity |]. intros ti. split.
    + intros Hin. by apply elem_of_nil in Hin.
    + intros (c & Hin & _). by apply elem_of_nil in Hin.
  - cbn [FederatedStore.ClustersSynced_collect].
    destruct (m !! Name (Meta c)) as [ti0|] eqn:Hc.
    + destruct (IH (acc ++ [ti0])) as [(Hall & found & Hrun & Hfound)|(Hnot & Hrun)].
      * left. split; [constructor; eauto |].
        exists (ti0 :: found). rewrite Hrun, <- app_assoc. split; [reflexivity |].
        intros ti. rewrite elem_of_cons, Hfound. split.
        -- intros [->|(c' & Hin & Hlk)].
           ++ exists c. split; [left | done].
           ++ exists c'. split; [by right | done].
        -- intros (c' & Hin & Hlk). apply elem_of_cons in Hin as [->|Hin].
           ++ left. congruence.
           ++ right. eauto.
      * right. split; [|exact Hrun]. intros Hall. apply Hnot.
        by inversion Hall.
    + right. split; [|reflexivity]. intros Hall.
      inversion Hall as [|? ? [? Hsome] ?]; subst. congruence.
Qed.

Lemma ClustersSynced_check_spec (informersToCheck : list informer) :
  FederatedStore.ClustersSynced_check informersToCheck = true
  ↔ ∀ ti, ti ∈ informersToCheck → cache.HasSynced (controller ti) = true.
Proof.
  induction informersToCheck as [|ti0 rest IH]; cbn.
  - split; [|done]. intros _ ti Hin. by apply elem_of_nil in Hin.
  - destruct (cache.HasSynced (controller ti0)) eqn:Hs; cbn.
    + rewrite IH. split.
      * intros Hall ti Hin. apply elem_of_cons in Hin as [->|Hin]; auto.
      * intros Hall ti Hin. apply Hall. by right.
    + split; [done |]. intros Hall. rewrite <- Hs. apply Hall. left.
Qed.

(** What ClustersSynced decides, for any list: the map has as many entries
    as the list, every listed name has an entry, and every entry of a listed
    name has synced. *)
Lemma ClustersSynced_spec (f : federatedInformerImpl)
  (clusters : list FederatedCluster) :
  FederatedStore.ClustersSynced f clusters = true
  ↔ size (targetInformers f) = length clusters
    ∧ (∀ c, c ∈ clusters →
         ∃ ti, targetInformers f !! Name (Meta c) = Some ti
               ∧ cache.HasSynced (controller ti) = true).
Proof.
  unfold FederatedStore.ClustersSynced.
  destruct (size (targetInformers f) =? length clusters)%nat eqn:Hsize; cbn [negb].
  - apply Nat.eqb_eq in Hsize.
    destruct (ClustersSynced_collect_spec (targetInformers f) clusters [])
      as [(Hall & found & -> & Hfound)|(Hnot & ->)]; cbn.
    + rewrite ClustersSynced_check_spec. split.
      * intros Hsynced. split; [done |]. intros c Hin.
        rewrite Forall_forall in Hall. destruct (Hall c Hin) as [ti Hti].
        exists ti. split; [done |]. apply Hsynced, Hfound. eauto.
      * intros [_ Hsynced] ti Hin. apply Hfound in Hin as (c & Hin & Hlk).
        destruct (Hsynced c Hin) as (ti' & Hlk' & Hs). congruence.
    + split; [done |]. intros [_ Hsynced]. exfalso. apply Hnot.
      apply Forall_forall. intros c Hin.
      destruct (Hsynced c Hin) as (ti & -> & _). eauto.
  - apply Nat.eqb_neq in Hsize. cbn. split; [done |]. intros [? _]. done.
Qed.

(** X27: for a list of clusters with pairwise distinct names,
    ClustersSynced returns true exactly when the names of the active target
    informers are the names of the list and every active target informer
    reports that it has synced. *)
Theorem ClustersSynced_exact (f : federatedInformerImpl)
  (clusters : list FederatedCluster) :
  NoDup ((λ c, Name (Meta c)) <$> clusters) ->
  FederatedStore.ClustersSynced f clusters = true
  ↔ dom (targetInformers f) = list_to_set ((λ c, Name (Meta c)) <$> clusters)
    ∧ (∀ name ti, targetInformers f !! name = Some ti →
                  cache.HasSynced (controller ti) = true).
Proof.
  intros Hnodup. rewrite ClustersSynced_spec.
  set (names := (λ c, Name (Meta c)) <$> clusters) in *.
  assert (Hlen : size (list_to_set names : gset string) = length clusters).
  { rewrite size_list_to_set by done. unfold names. by rewrite length_fmap. }
  split.
  - intros [Hsize Hlisted].
    assert (Hdom : dom (targetInformers f) = list_to_set names).
    { symmetry. apply set_subseteq_size_eq.
      - intros name Hin. apply elem_of_list_to_set in Hin.
        apply list_elem_of_fmap in Hin as (c & -> & Hin).
        destruct (Hlisted c Hin) as (ti & Hti & _).
        apply elem_of_dom. eauto.
      - rewrite size_dom, Hlen. lia. }
    split; [exact Hdom |]. intros name ti Hti.
    assert (Hin : name ∈ dom (targetInformers f)) by (apply elem_of_dom; eauto).
    rewrite Hdom in Hin. apply elem_of_list_to_set in Hin.
    apply list_elem_of_fmap in Hin as (c & -> & Hin).
    destruct (Hlisted c Hin) as (ti' & Hti' & Hs). congruence.
  - intros [Hdom Hsynced]. split.
    + by rewrite <- size_dom, Hdom.
    + intros c Hin.
      assert (Hd : Name (Meta c) ∈ dom (targetInformers f)).
      { rewrite Hdom. apply elem_of_list_to_set, list_elem_of_fmap. eauto. }
      apply elem_of_dom in Hd as [ti Hti]. eauto.
Qed.

Lemma ClustersSynced_exact_witness :
  FederatedStore.ClustersSynced (withMember1 true) [member1] = true
  ↔ dom (targetInformers (withMember1 true))
    = list_to_set ((λ c, Name (Meta c)) <$> [member1])
    ∧ (∀ name ti, targetInformers (withMember1 true) !! name = Some ti →
                  cache.HasSynced (controller ti) = true).
Proof.
  apply (ClustersSynced_exact (withMember1 true) [member1]).
  apply NoDup_singleton.
Defined.

(** The probe on a list that names a cluster twice.  With
    active target informers for member-1 (synced) and member-3 (not synced)
    and the list [member1; member1], ClustersSynced returns true, although
    member-3 is active, is not named in the list and has not synced. *)
Lemma ClustersSynced_duplicate_names :
  FederatedStore.ClustersSynced twoHandles [member1; member1] = true
  ∧ "member-3" ∈ dom (targetInformers twoHandles)
  ∧ ("member-3" ∉ (λ c, Name (Meta c)) <$> [member1; member1])
  ∧ dom (targetInformers twoHandles)
    ≠ list_to_set ((λ c, Name (Meta c)) <$> [member1; member1])
  ∧ ((cache.HasSynced ∘ controller) <$> (targetInformers twoHandles !! "member-3"))
    = Some false.
Proof.
  assert (Hactive : "member-3" ∈ dom (targetInformers twoHandles)).
  { apply elem_of_dom. unfold twoHandles. cbn [set_targetInformers targetInformers].
    rewrite lookup_insert_eq. eauto. }
  assert (Hunlisted : "member-3" ∉ (λ c, Name (Meta c)) <$> [member1; member1]).
  { cbn. intros Hin. repeat (apply elem_of_cons in Hin as [Hin|Hin]; [discriminate |]).
    by apply elem_of_nil in Hin. }
  split; [vm_compute; reflexivity |].
  split; [exact Hactive |]. split; [exact Hunlisted |].
  split; [|vm_compute; reflexivity].
  intros Heq. rewrite Heq in Hactive. by apply elem_of_list_to_set in Hactive.
Qed.

(** ** GetFromAllClusters *)

Lemma GetFromAllClusters_loop_ok (key : string) (entries : list (string * informer)) :
  ∀ acc,
    (∀ e, e ∈ entries → (cache.GetByKey (store e.2) key).2 = None) →
    FederatedStore.GetFromAllClusters_loop entries key acc
    = (Some (acc ++ hits key entries), None).
Proof.
  induction entries as [|[name ti] rest IH]; intros acc Hok.
  - cbn. by rewrite app_nil_r.
  - cbn [FederatedStore.GetFromAllClusters_loop hits flat_map].
    assert (Hhd := Hok (name, ti) ltac:(left)). cbn in Hhd.
    assert (Htl : ∀ e, e ∈ rest → (cache.GetByKey (store e.2) key).2 = None)
      by (intros; apply Hok; by right).
    unfold hit at 1. cbn [fst snd].
    destruct (cache.GetByKey (store ti) key) as [[value [|]] err];
      cbn in Hhd; subst err.
    + rewrite (IH _ Htl). unfold hits. by rewrite <- app_assoc.
    + rewrite (IH _ Htl). reflexivity.
Qed.

Lemma GetFromAllClusters_loop_err (key : string)
  (pre post : list (string * informer)) (name : string) (ti : informer)
  (err : error) :
  ∀ acc,
    (∀ e, e ∈ pre → (cache.GetByKey (store e.2) key).2 = None) →
    (cache.GetByKey (store ti) key).2 = Some err →
    FederatedStore.GetFromAllClusters_loop (pre ++ (name, ti) :: post) key acc
    = (None, Some err).
Proof.
  induction pre as [|[n0 t0] pre IH]; intros acc Hpre Herr.
  - cbn. destruct (cache.GetByKey (store ti) key) as [[value [|]] e0];
      cbn in Herr; subst e0; reflexivity.
  - cbn [app FederatedStore.GetFromAllClusters_loop].
    assert (Hhd := Hpre (n0, t0) ltac:(left)). cbn in Hhd.
    assert (Htl : ∀ e, e ∈ pre → (cache.GetByKey (store e.2) key).2 = None)
      by (intros; apply Hpre; by right).
    destruct (cache.GetByKey (store t0) key) as [[value [|]] e0];
      cbn in Hhd; subst e0; by apply IH.
Qed.

Lemma hit_ClusterName (key : string) (e : string * informer) (o : FederatedObject) :
  o ∈ hit key e → ClusterName o = e.1.
Proof.
  unfold hit. destruct (cache.GetByKey (store e.2) key) as [[value [|]] err].
  - intros Hin. apply list_elem_of_singleton in Hin. by subst o.
  - intros Hin. by apply elem_of_nil in Hin.
Qed.

Lemma filter_all {A : Type} (P : A → Prop) `{∀ x, Decision (P x)} (l : list A) :
  (∀ x, x ∈ l → P x) → filter P l = l.
Proof.
  induction l as [|x l IH]; intros Hall; [done |].
  rewrite filter_cons_True by (apply Hall; left).
  f_equal. apply IH. intros; apply Hall; by right.
Qed.

Lemma filter_none {A : Type} (P : A → Prop) `{∀ x, Decision (P x)} (l : list A) :
  (∀ x, x ∈ l → ¬ P x) → filter P l = [].
Proof.
  induction l as [|x l IH]; intros Hall; [done |].
  rewrite filter_cons_False by (apply Hall; left).
  apply IH. intros; apply Hall; by right.
Qed.

Lemma filter_hits_absent (key name : string) (entries : list (string * informer)) :
  name ∉ entries.*1 →
  filter (λ o, ClusterName o = name) (hits key entries) = [].
Proof.
  intros Hnot. apply filter_none. intros o Hin Hname.
  unfold hits in Hin. apply list_elem_of_In, in_flat_map in Hin as (e & He & Ho).
  apply list_elem_of_In in He, Ho. apply hit_ClusterName in Ho.
  apply Hnot. apply list_elem_of_fmap. exists e. split; [congruence | done].
Qed.

Lemma filter_hits_present (key name : string) (ti : informer)
  (entries : list (string * informer)) :
  NoDup entries.*1 →
  (name, ti) ∈ entries →
  filter (λ o, ClusterName o = name) (hits key entries) = hit key (name, ti).
Proof.
  induction entries as [|[n0 t0] rest IH]; intros Hnd Hin.
  - by apply elem_of_nil in Hin.
  - cbn in Hnd. apply NoDup_cons in Hnd as [Hfresh Hnd].
    unfold hits. cbn [flat_map]. rewrite filter_app. fold (hits key rest).
    apply elem_of_cons in Hin as [[= <- <-]|Hin].
    + rewrite filter_hits_absent by done. rewrite app_nil_r.
      apply filter_all. intros o Ho. by apply hit_ClusterName in Ho.
    + rewrite (IH Hnd Hin).
      rewrite filter_none; [done |].
      intros o Ho Hname. apply hit_ClusterName in Ho. cbn in Ho.
      apply Hfresh. apply list_elem_of_fmap. exists (name, ti).
      split; [cbn; congruence | done].
Qed.

(** C8: whatever the order in which the map is ranged over,
    GetFromAllClusters(k) returns, when no per-cluster lookup fails, exactly
    one entry tagged with the cluster name for every active target informer
    whose mirror contains k and none for the others; and when a lookup
    fails, it returns the error of the first failing lookup together with a
    nil result. *)
Theorem GetFromAllClusters_union_fail_fast (f : federatedInformerImpl)
  (order : list (string * informer)) (key : string) :
  order ≡ₚ map_to_list (targetInformers f) ->
  ((∀ name ti, targetInformers f !! name = Some ti →
               (cache.GetByKey (store ti) key).2 = None) →
   ∃ r, FederatedStore.GetFromAllClusters_in order key = (Some r, None)
        ∧ ∀ name,
            filter (λ o, ClusterName o = name) r
            = match targetInformers f !! name with
              | Some ti =>
                  match cache.GetByKey (store ti) key with
                  | (value, true, _) => [{| Object := value; ClusterName := name |}]
                  | (_, false, _) => []
                  end
              | None => []
              end)
  ∧ (∀ pre name ti post err,
       order = pre ++ (name, ti) :: post →
       (∀ e, e ∈ pre → (cache.GetByKey (store e.2) key).2 = None) →
       (cache.GetByKey (store ti) key).2 = Some err →
       FederatedStore.GetFromAllClusters_in order key = (None, Some err)).
Proof.
  intros Hperm. split.
  - intros Hok. exists (hits key order). split.
    + unfold FederatedStore.GetFromAllClusters_in.
      rewrite GetFromAllClusters_loop_ok; [reflexivity |].
      intros [name ti] Hin. rewrite Hperm in Hin.
      apply elem_of_map_to_list in Hin. by eapply Hok.
    + intros name.
      assert (Hnd : NoDup order.*1).
      { rewrite Hperm. apply NoDup_fst_map_to_list. }
      destruct (targetInformers f !! name) as [ti|] eqn:Hlk.
      * rewrite (filter_hits_present key name ti); [reflexivity | done |].
        rewrite Hperm. by apply elem_of_map_to_list.
      * apply filter_hits_absent. intros Hin.
        apply list_elem_of_fmap in Hin as ([n ti] & -> & Hin).
        rewrite Hperm in Hin. apply elem_of_map_to_list in Hin.
        cbn in Hlk. congruence.
  - intros pre name ti post err -> Hpre Herr.
    by apply GetFromAllClusters_loop_err.
Qed.

Lemma GetFromAllClusters_union_fail_fast_witness :
  let f := withMember1 true in
  let order := map_to_list (targetInformers f) in
  let key := "default/web" in
  ((∀ name ti, targetInformers f !! name = Some ti →
               (cache.GetByKey (store ti) key).2 = None) →
   ∃ r, FederatedStore.GetFromAllClusters_in order key = (Some r, None)
        ∧ ∀ name,
            filter (λ o, ClusterName o = name) r
            = match targetInformers f !! name with
              | Some ti =>
                  match cache.GetByKey (store ti) key with
                  | (value, true, _) => [{| Object := value; ClusterName := name |}]
                  | (_, false, _) => []
                  end
              | None => []
              end)
  ∧ (∀ pre name ti post err,
       order = pre ++ (name, ti) :: post →
       (∀ e, e ∈ pre → (cache.GetByKey (store e.2) key).2 = None) →
       (cache.GetByKey (store ti) key).2 = Some err →
       FederatedStore.GetFromAllClusters_in order key = (None, Some err)).
Proof.
  intros f order key.
  apply (GetFromAllClusters_union_fail_fast f order key).
  reflexivity.
Defined.

Example GetFromAllClusters_member1 :
  FederatedStore.GetFromAllClusters (withMember1 true) "default/web"
  = (Some [{| Object := Some (ItemUnstructured (webObject None));
              ClusterName := "member-1" |}], None)
  ∧ FederatedStore.GetFromAllClusters (withMember1 true) "default/db" = (Some [], None).
Proof. split; vm_compute; reflexivity. Qed.

(** ** Installing and removing handles *)

Lemma deleteCluster_run (cluster : FederatedCluster) (f : federatedInformerImpl) :
  handle_open f (Name (Meta cluster)) →
  ∃ f',
    deleteCluster cluster f = Done tt f'
    ∧ same_env f f'
    ∧ targetInformers f' = delete (Name (Meta cluster)) (targetInformers f)
    ∧ clusterClients f' = delete (Name (Meta cluster)) (clusterClients f)
    ∧ chans f' = match handleChan f (Name (Meta cluster)) with
                 | Some c => <[c:=true]> (chans f)
                 | None => chans f
                 end
    ∧ log f' = log f
               ++ match handleChan f (Name (Meta cluster)) with
                  | Some c => [EvClose c]
                  | None => []
                  end
               ++ [EvRemove (Name (Meta cluster))].
Proof.
  intros Hopen. unfold deleteCluster, handleChan, handle_open in *. run.
  destruct (targetInformers f !! Name (Meta cluster)) as [ti|] eqn:Hti.
  - destruct (Hopen ti eq_refl) as (c & Hc & Hoc). rewrite Hc.
    rewrite (close_open c f Hoc). cbn.
    eexists. split; [reflexivity |]. cbn.
    rewrite <- !app_assoc. repeat split; reflexivity.
  - cbn. eexists. split; [reflexivity |]. cbn. repeat split; reflexivity.
Qed.

Lemma canInstall_same_env (f f' : federatedInformerImpl) (cluster : FederatedCluster) :
  same_env f f' → canInstall f' cluster = canInstall f cluster.
Proof.
  intros (Hci & Hcf & Htf).
  unfold canInstall, getConfigForClusterUnlocked, getReadyClusterUnlocked,
    getClusterUnlocked.
  by rewrite Hci, Hcf, Htf.
Qed.

Lemma addCluster_run (cluster : FederatedCluster) (f : federatedInformerImpl) :
  ∃ f',
    addCluster cluster f = Done tt f'
    ∧ same_env f f'
    ∧ clusterClients f' = clusterClients f
    ∧ match canInstall f cluster with
      | Some (st, ctl) =>
          targetInformers f'
          = <[Name (Meta cluster) :=
                {| controller := ctl; store := st;
                   stopChan := Some (length (chans f)) |}]> (targetInformers f)
          ∧ chans f' = chans f ++ [false]
          ∧ log f' = log f ++ [EvInstall (Name (Meta cluster)) (length (chans f));
                               EvRun (Some (length (chans f)))]
      | None =>
          targetInformers f' = targetInformers f
          ∧ chans f' = chans f
          ∧ log f' = log f
      end.
Proof.
  unfold addCluster, canInstall. run.
  destruct (getConfigForClusterUnlocked f (Name (Meta cluster))) as [config|e].
  - destruct (targetInformerFactory f cluster config) as [[st ctl]|e'].
    + run. eexists. split; [reflexivity |]. cbn.
      rewrite <- !app_assoc. repeat split; reflexivity.
    + exists f. repeat split; reflexivity.
  - exists f. repeat split; reflexivity.
Qed.

Lemma getClusterData_run (name : string) (f : federatedInformerImpl) :
  getClusterData name f
  = Done (FederatedStore.ListFromCluster f name).1
         (set_log (log f ++ [EvSnapshot name]) f).
Proof.
  unfold getClusterData, FederatedStore.ListFromCluster. run.
  by destruct (targetInformers f !! name).
Qed.

Lemma when_emit_run (b : bool) (ev : Event) (f : federatedInformerImpl) :
  when b (emit ev) f = Done tt (set_log (log f ++ (if b then [ev] else [])) f).
Proof.
  destruct b; run; [reflexivity |]. rewrite app_nil_r. by destruct f.
Qed.

Lemma closedHandle_length (f : federatedInformerImpl) (name : string) :
  length (closedHandle f name) = length (chans f).
Proof.
  unfold closedHandle. destruct (handleChan f name); [apply length_insert | done].
Qed.

(** The recreate branch of UpdateFunc, step by step. *)
Lemma UpdateFunc_recreate_run (cl : ClusterLifecycleHandlerFuncs)
  (oldCluster curCluster : FederatedCluster) (f : federatedInformerImpl) :
  newlyMarkedForDeletion oldCluster curCluster = false →
  materiallyChanged oldCluster curCluster = true →
  handle_open f (Name (Meta oldCluster)) →
  ∃ f',
    UpdateFunc cl (ItemCluster oldCluster) (ItemCluster curCluster) f = Done tt f'
    ∧ same_env f f'
    ∧ clusterClients f' = delete (Name (Meta oldCluster)) (clusterClients f)
    ∧ log f' = log f
               ++ snapshotStep cl (Name (Meta oldCluster))
               ++ destroyStep f (Name (Meta oldCluster))
               ++ unavailableStep cl f oldCluster
               ++ availableStep cl f curCluster
    ∧ if IsClusterReady (Status curCluster) then
        match canInstall f curCluster with
        | Some (st, ctl) =>
            targetInformers f'
            = <[Name (Meta curCluster) :=
                  {| controller := ctl; store := st;
                     stopChan := Some (length (chans f)) |}]>
                (delete (Name (Meta oldCluster)) (targetInformers f))
            ∧ chans f' = closedHandle f (Name (Meta oldCluster)) ++ [false]
        | None =>
            targetInformers f' = delete (Name (Meta oldCluster)) (targetInformers f)
            ∧ chans f' = closedHandle f (Name (Meta oldCluster))
        end
      else
        targetInformers f' = delete (Name (Meta oldCluster)) (targetInformers f)
        ∧ chans f' = closedHandle f (Name (Meta oldCluster)).
Proof.
  intros Hmark Hchanged Hopen. unfold UpdateFunc.
  unfold newlyMarkedForDeletion in Hmark. rewrite Hmark, Hchanged.
  set (oname := Name (Meta oldCluster)) in *.
  set (data := (FederatedStore.ListFromCluster f oname).1).
  (* the snapshot *)
  set (f1 := set_log (log f ++ snapshotStep cl oname) f).
  assert (Hsnap :
    (if ClusterUnavailable cl then getClusterData oname else mret []) f
    = Done (if ClusterUnavailable cl then data else []) f1).
  { unfold f1, snapshotStep. destruct (ClusterUnavailable cl).
    - apply getClusterData_run.
    - run. rewrite app_nil_r. by destruct f. }
  unfold mbind at 1. unfold M_bind at 1. rewrite Hsnap.
  (* the old handle goes *)
  destruct (deleteCluster_run oldCluster f1 Hopen)
    as (f2 & Hdel & Henv2 & Hti2 & Hcc2 & Hch2 & Hlog2).
  unfold mbind at 1. unfold M_bind at 1. rewrite Hdel.
  unfold mbind at 1. unfold M_bind at 1. rewrite when_emit_run.
  set (f3 := set_log _ f2).
  assert (Hlog3 : log f3 = log f ++ snapshotStep cl oname ++ destroyStep f oname
                           ++ unavailableStep cl f oldCluster).
  { unfold f3. cbn [log set_log]. rewrite Hlog2. unfold f1. cbn [log set_log].
    unfold destroyStep, unavailableStep, handleChan. cbn [targetInformers set_log].
    fold oname. fold data.
    rewrite <- !app_assoc. f_equal. f_equal.
    destruct (ClusterUnavailable cl); reflexivity. }
  assert (Henv3 : same_env f f3).
  { destruct Henv2 as (H1 & H2 & H3). unfold f1 in H1, H2, H3.
    cbn in H1, H2, H3. unfold f3. repeat split; cbn; assumption. }
  assert (Hch3 : chans f3 = closedHandle f oname) by exact Hch2.
  assert (Hti3 : targetInformers f3 = delete oname (targetInformers f)) by exact Hti2.
  assert (Hcc3 : clusterClients f3 = delete oname (clusterClients f)) by exact Hcc2.
  clearbody f3. clear Hdel Hsnap.
  unfold availableStep.
  destruct (IsClusterReady (Status curCluster)).
  - destruct (addCluster_run curCluster f3) as (f4 & Hadd & Henv4 & Hcc4 & Hinst).
    unfold mbind at 1. unfold M_bind at 1. rewrite Hadd, when_emit_run.
    eexists. split; [reflexivity |]. cbn [log set_log clusterClients targetInformers chans].
    rewrite (canInstall_same_env f f3 curCluster Henv3) in Hinst.
    split. { destruct Henv3 as (? & ? & ?), Henv4 as (? & ? & ?).
             repeat split; cbn; congruence. }
    split; [congruence |].
    destruct (canInstall f curCluster) as [[st ctl]|].
    + destruct Hinst as (Hti4 & Hch4 & Hlog4).
      rewrite Hlog4, Hlog3, Hti4, Hch4, Hti3, Hch3, closedHandle_length.
      split; [|split; reflexivity].
      rewrite <- !app_assoc. reflexivity.
    + destruct Hinst as (Hti4 & Hch4 & Hlog4).
      rewrite Hlog4, Hlog3, Hti4, Hch4, Hti3, Hch3.
      split; [|split; reflexivity].
      rewrite <- !app_assoc. reflexivity.
  - exists f3. split; [reflexivity |]. split; [exact Henv3 |].
    split; [exact Hcc3 |]. rewrite Hlog3, app_nil_r. auto.
Qed.

Lemma materiallyChanged_true (oldCluster curCluster : FederatedCluster) :
  materiallyChanged oldCluster curCluster = true
  ↔ IsClusterReady (Status oldCluster) ≠ IsClusterReady (Status curCluster)
    ∨ Spec oldCluster ≠ Spec curCluster
    ∨ Labels (Meta oldCluster) ≠ Labels (Meta curCluster)
    ∨ Annotations (Meta oldCluster) ≠ Annotations (Meta curCluster).
Proof.
  unfold materiallyChanged.
  rewrite !orb_true_iff, !negb_true_iff, !bool_decide_eq_false.
  rewrite Bool.eqb_false_iff. tauto.
Qed.

Lemma newlyMarkedForDeletion_false (oldCluster curCluster : FederatedCluster) :
  newlyMarkedForDeletion oldCluster curCluster = false
  ↔ ¬ (DeletionTimestamp (Meta oldCluster) = None
       ∧ DeletionTimestamp (Meta curCluster) ≠ None).
Proof.
  unfold newlyMarkedForDeletion.
  rewrite andb_false_iff, negb_false_iff, bool_decide_eq_false, bool_decide_eq_true.
  split; [tauto |]. intros Hn.
  destruct (decide (DeletionTimestamp (Meta oldCluster) = None)); [|by left].
  destruct (decide (DeletionTimestamp (Meta curCluster) = None)); [by right |].
  exfalso. auto.
Qed.

(** ** The recreate branch of the dispatcher *)

(** C5, as amended: for an update event that does not newly set the
    deletion marker and in which readiness flips or the spec, the labels or
    the annotations differ structurally, the dispatcher performs, in this
    order: the snapshot (only if ClusterUnavailable is registered), the
    destruction of the old handle (its channel closed, its entries removed),
    the invocation of ClusterUnavailable with the snapshot (if registered),
    and then, if the new state is ready, the installation of a new handle
    (when the factories succeed) and the invocation of ClusterAvailable (if
    registered). *)
Theorem UpdateFunc_recreate_order (cl : ClusterLifecycleHandlerFuncs)
  (oldCluster curCluster : FederatedCluster) (f : federatedInformerImpl) :
  ¬ (DeletionTimestamp (Meta oldCluster) = None
     ∧ DeletionTimestamp (Meta curCluster) ≠ None) ->
  (IsClusterReady (Status oldCluster) ≠ IsClusterReady (Status curCluster)
   ∨ Spec oldCluster ≠ Spec curCluster
   ∨ Labels (Meta oldCluster) ≠ Labels (Meta curCluster)
   ∨ Annotations (Meta oldCluster) ≠ Annotations (Meta curCluster)) ->
  handle_open f (Name (Meta oldCluster)) ->
  ∃ f',
    UpdateFunc cl (ItemCluster oldCluster) (ItemCluster curCluster) f = Done tt f'
    ∧ log f' = log f
               ++ snapshotStep cl (Name (Meta oldCluster))
               ++ destroyStep f (Name (Meta oldCluster))
               ++ unavailableStep cl f oldCluster
               ++ availableStep cl f curCluster.
Proof.
  intros Hmark Hchanged Hopen.
  apply newlyMarkedForDeletion_false in Hmark.
  apply materiallyChanged_true in Hchanged.
  destruct (UpdateFunc_recreate_run cl oldCluster curCluster f Hmark Hchanged Hopen)
    as (f' & Hrun & _ & _ & Hlog & _).
  eauto.
Qed.

Lemma withMember1_handle_open : handle_open (withMember1 true) "member-1".
Proof.
  intros ti Hti. exists 0%nat. vm_compute in Hti. injection Hti as <-.
  split; reflexivity.
Defined.

Lemma UpdateFunc_recreate_order_witness :
  ∃ f',
    UpdateFunc bothCallbacks (ItemCluster member1) (ItemCluster member1Relabelled)
      (withMember1 true) = Done tt f'
    ∧ log f' = log (withMember1 true)
               ++ snapshotStep bothCallbacks "member-1"
               ++ destroyStep (withMember1 true) "member-1"
               ++ unavailableStep bothCallbacks (withMember1 true) member1
               ++ availableStep bothCallbacks (withMember1 true) member1Relabelled.
Proof.
  apply (UpdateFunc_recreate_order bothCallbacks member1 member1Relabelled
           (withMember1 true)).
  - intros [_ Hcur]. apply Hcur. reflexivity.
  - right. right. left. discriminate.
  - exact withMember1_handle_open.
Defined.

Example UpdateFunc_recreate_log :
  log (exec (UpdateFunc bothCallbacks (ItemCluster member1)
               (ItemCluster member1Relabelled)) (withMember1 true))
  = log (withMember1 true)
    ++ [EvSnapshot "member-1";
        EvClose 0; EvRemove "member-1";
        EvClusterUnavailable member1 [ItemUnstructured (webObject None)];
        EvInstall "member-1" 1; EvRun (Some 1%nat);
        EvClusterAvailable member1Relabelled].
Proof. vm_compute. reflexivity. Qed.

(** C5, as stated, fails: when [member1] loses readiness, the old handle is
    destroyed (its channel closed, its entries removed) before
    ClusterUnavailable is invoked, not after. *)
Lemma UpdateFunc_destroys_before_unavailable :
  IsClusterReady (Status member1) ≠ IsClusterReady (Status member1Unready)
  ∧ ∃ f',
      UpdateFunc bothCallbacks (ItemCluster member1) (ItemCluster member1Unready)
        (withMember1 true) = Done tt f'
      ∧ log f' = log (withMember1 true)
                 ++ [EvSnapshot "member-1";
                     EvClose 0; EvRemove "member-1";
                     EvClusterUnavailable member1 [ItemUnstructured (webObject None)]]
      ∧ ¬ ∃ i j, firstIndex isUnavailable (log f') = Some i
                 ∧ firstIndex isDestroy (log f') = Some j
                 ∧ i < j.
Proof.
  split; [discriminate |].
  eexists. split; [vm_compute; reflexivity |].
  split; [vm_compute; reflexivity |].
  intros (i & j & Hi & Hj & Hlt). vm_compute in Hi, Hj.
  injection Hi as <-. injection Hj as <-. lia.
Qed.

(** ** One handle per cluster name *)

(** The update path closes first: at most one handle is recorded per
    cluster name at any time; and when an update event recreates the handle
    of a cluster (the
    old and the new object carry the same name, the change is material, the
    new state is ready and the factories succeed), the previous handle's
    stop channel is closed and its entry removed before the new handle, on a
    fresh open channel, is recorded. *)
Theorem handle_replaced_after_close (cl : ClusterLifecycleHandlerFuncs)
  (oldCluster curCluster : FederatedCluster) (f : federatedInformerImpl)
  (ti : informer) (c : nat) :
  Name (Meta curCluster) = Name (Meta oldCluster) ->
  ¬ (DeletionTimestamp (Meta oldCluster) = None
     ∧ DeletionTimestamp (Meta curCluster) ≠ None) ->
  (IsClusterReady (Status oldCluster) ≠ IsClusterReady (Status curCluster)
   ∨ Spec oldCluster ≠ Spec curCluster
   ∨ Labels (Meta oldCluster) ≠ Labels (Meta curCluster)
   ∨ Annotations (Meta oldCluster) ≠ Annotations (Meta curCluster)) ->
  IsClusterReady (Status curCluster) = true ->
  targetInformers f !! Name (Meta oldCluster) = Some ti ->
  stopChan ti = Some c ->
  chans f !! c = Some false ->
  is_Some (canInstall f curCluster) ->
  NoDup (map_to_list (targetInformers f)).*1
  ∧ ∃ f' ti' c',
      UpdateFunc cl (ItemCluster oldCluster) (ItemCluster curCluster) f = Done tt f'
      ∧ NoDup (map_to_list (targetInformers f')).*1
      ∧ targetInformers f' !! Name (Meta oldCluster) = Some ti'
      ∧ stopChan ti' = Some c'
      ∧ c' ≠ c
      ∧ chans f' !! c = Some true
      ∧ chans f' !! c' = Some false
      ∧ log f' = log f
                 ++ snapshotStep cl (Name (Meta oldCluster))
                 ++ [EvClose c; EvRemove (Name (Meta oldCluster))]
                 ++ unavailableStep cl f oldCluster
                 ++ [EvInstall (Name (Meta oldCluster)) c'; EvRun (Some c')]
                 ++ (if ClusterAvailable cl then [EvClusterAvailable curCluster] else []).
Proof.
  intros Hname Hmark Hchanged Hready Hti Hc Hopen [[st ctl] Hinst].
  split; [apply NoDup_fst_map_to_list |].
  apply newlyMarkedForDeletion_false in Hmark.
  apply materiallyChanged_true in Hchanged.
  assert (Hho : handle_open f (Name (Meta oldCluster))).
  { intros ti0 Hti0. exists c. split; congruence. }
  destruct (UpdateFunc_recreate_run cl oldCluster curCluster f Hmark Hchanged Hho)
    as (f' & Hrun & _ & _ & Hlog & Hstate).
  rewrite Hready, Hinst in Hstate. destruct Hstate as (Hti' & Hch').
  assert (Hhc : handleChan f (Name (Meta oldCluster)) = Some c).
  { unfold handleChan. by rewrite Hti. }
  assert (Hlt : c < length (chans f)) by (by eapply lookup_lt_Some).
  exists f', {| controller := ctl; store := st; stopChan := Some (length (chans f)) |},
    (length (chans f)).
  split; [exact Hrun |]. split; [apply NoDup_fst_map_to_list |].
  split; [rewrite Hti', Hname; apply lookup_insert_eq |].
  split; [reflexivity |]. split; [lia |].
  unfold closedHandle in Hch'. rewrite Hhc in Hch'.
  split.
  { rewrite Hch', lookup_app_l by (rewrite length_insert; lia).
    by apply list_lookup_insert_eq. }
  split.
  { rewrite Hch', lookup_app_r by (rewrite length_insert; lia).
    rewrite length_insert, Nat.sub_diag. reflexivity. }
  rewrite Hlog. unfold destroyStep, availableStep.
  rewrite Hhc, Hready, Hinst, Hname. cbn [app]. reflexivity.
Qed.

Lemma handle_replaced_after_close_witness :
  NoDup (map_to_list (targetInformers (withMember1 true))).*1
  ∧ ∃ f' ti' c',
      UpdateFunc bothCallbacks (ItemCluster member1) (ItemCluster member1Relabelled)
        (withMember1 true) = Done tt f'
      ∧ NoDup (map_to_list (targetInformers f')).*1
      ∧ targetInformers f' !! "member-1" = Some ti'
      ∧ stopChan ti' = Some c'
      ∧ c' ≠ 0%nat
      ∧ chans f' !! 0%nat = Some true
      ∧ chans f' !! c' = Some false
      ∧ log f' = log (withMember1 true)
                 ++ snapshotStep bothCallbacks "member-1"
                 ++ [EvClose 0; EvRemove "member-1"]
                 ++ unavailableStep bothCallbacks (withMember1 true) member1
                 ++ [EvInstall "member-1" c'; EvRun (Some c')]
                 ++ [EvClusterAvailable member1Relabelled].
Proof.
  apply (handle_replaced_after_close bothCallbacks member1 member1Relabelled
           (withMember1 true)
           {| controller := {| cache.HasSynced := true |};
              store := storeOf member1Mirror;
              stopChan := Some 0%nat |} 0%nat).
  - reflexivity.
  - intros [_ Hcur]. apply Hcur. reflexivity.
  - right. right. left. discriminate.
  - reflexivity.
  - vm_compute. reflexivity.
  - reflexivity.
  - reflexivity.
  - vm_compute. eauto.
Defined.

(** addCluster at work: run for a cluster whose handle is
    present, it records a new handle under the name and leaves the previous
    handle's stop channel open (nothing is closed). *)
Lemma addCluster_overwrites_open_handle :
  stopChan <$> (targetInformers (withMember1 true) !! "member-1") = Some (Some 0%nat)
  ∧ ∃ f',
      addCluster member1 (withMember1 true) = Done tt f'
      ∧ stopChan <$> (targetInformers f' !! "member-1") = Some (Some 1%nat)
      ∧ chans f' !! 0%nat = Some false
      ∧ log f' = log (withMember1 true)
                 ++ [EvInstall "member-1" 1; EvRun (Some 1%nat)].
Proof.
  split; [vm_compute; reflexivity |].
  eexists. split; [vm_compute; reflexivity |].
  repeat split; vm_compute; reflexivity.
Qed.

(** ** The direct-fetch helper and the managed marker *)

Lemma GetClientForCluster_total (generic_New : Config → result generic.Client)
  (clusterName : string) (f : federatedInformerImpl) :
  ∃ r f', GetClientForCluster generic_New clusterName f = Done r f'
          ∧ ((∃ client, r = (Some client, None)) ∨ (∃ err, r = (None, Some err))).
Proof.
  unfold GetClientForCluster. run.
  destruct (clusterClients f !! clusterName) as [client|]; [by eauto 6 |].
  destruct (getConfigForClusterUnlocked f clusterName) as [config|err];
    [|by eauto 6].
  destruct (generic_New config) as [client|err]; run; by eauto 6.
Qed.

(** X29: the managed-marker filter belongs to the direct-read
    path only.  When the cluster's handle has not synced, GetClusterObject
    returns a result, every object it returns carries the marker, and a
    remote object without the marker is reported as absent (not found, no
    error).  When the handle has synced, the object found in the mirror is
    returned as it is, whether it carries the marker or not. *)
Theorem GetClusterObject_marker_filter
  (generic_New : Config → result generic.Client) (clusterName : string)
  (qualifedName : common.QualifiedName) (apiResource : schema.APIResource)
  (f : federatedInformerImpl) :
  (FederatedStore.ClusterSynced f clusterName = false →
   ∃ r f',
     GetClusterObject generic_New clusterName qualifedName apiResource f = Done r f'
     ∧ (∀ u, r.1.1 = Some u →
             managedlabel.HasManagedLabel u = true ∧ r = (Some u, true, None))
     ∧ (∀ client f1 u,
          GetClientForCluster generic_New clusterName f = Done (Some client, None) f1 →
          generic.Get client (requestObject apiResource)
            (common.Namespace qualifedName) (common.Name qualifedName) = (u, None) →
          managedlabel.HasManagedLabel u = false →
          r = (None, false, None)))
  ∧ (FederatedStore.ClusterSynced f clusterName = true →
     ∀ u,
       FederatedStore.GetByKey f clusterName (common.String qualifedName)
       = (Some (ItemUnstructured u), true, None) →
       GetClusterObject generic_New clusterName qualifedName apiResource f
       = Done (Some u, true, None) f).
Proof.
  split.
  - intros Hsynced. unfold GetClusterObject.
    unfold mbind at 1. unfold M_bind at 1. unfold get at 1. rewrite Hsynced.
    unfold mbind at 1. unfold M_bind at 1.
    destruct (GetClientForCluster_total generic_New clusterName f)
      as (r0 & f1 & Hclient & [[client ->]|[err ->]]); rewrite Hclient.
    + fold (requestObject apiResource).
      destruct (generic.Get client (requestObject apiResource)
                  (common.Namespace qualifedName) (common.Name qualifedName))
        as [obj [err|]] eqn:Hget.
      * destruct (apierrors.IsNotFound err); run;
          (eexists _, _; split; [reflexivity |]); cbn;
          (split; [intros ? [=] |]);
          intros client' f1' u [= <- <-]; rewrite Hget; intros [=].
      * destruct (managedlabel.HasManagedLabel obj) eqn:Hlabel; run; cbn [negb];
          (eexists _, _; split; [reflexivity |]); cbn.
        -- split; [intros u [= <-]; auto |].
           intros client' f1' u [= <- <-]. rewrite Hget. intros [= <-]. congruence.
        -- split; [intros ? [=] |]. reflexivity.
    + run. eexists _, _. split; [reflexivity |]. cbn.
      split; [intros ? [=] |]. intros client f1' u [=].
  - intros Hsynced u Hget. unfold GetClusterObject.
    unfold mbind at 1. unfold M_bind at 1. unfold get at 1.
    rewrite Hsynced, Hget. reflexivity.
Qed.

Lemma GetClusterObject_marker_filter_witness :
  ∃ r f',
    GetClusterObject exampleNew "member-1" defaultWeb deployments (withMember1 false)
    = Done r f'
    ∧ (∀ u, r.1.1 = Some u →
            managedlabel.HasManagedLabel u = true ∧ r = (Some u, true, None))
    ∧ (∀ client f1 u,
         GetClientForCluster exampleNew "member-1" (withMember1 false)
         = Done (Some client, None) f1 →
         generic.Get client (requestObject deployments)
           (common.Namespace defaultWeb) (common.Name defaultWeb) = (u, None) →
         managedlabel.HasManagedLabel u = false →
         r = (None, false, None)).
Proof.
  apply (proj1 (GetClusterObject_marker_filter exampleNew "member-1" defaultWeb
                  deployments (withMember1 false))).
  vm_compute. reflexivity.
Defined.

Example GetClusterObject_direct_unmarked :
  ∃ f', GetClusterObject exampleNew "member-1" defaultWeb deployments
          (withMember1 false) = Done (None, false, None) f'.
Proof. eexists. vm_compute. reflexivity. Qed.

(** The mirror path at work: with a synced handle whose
    mirror holds [default/web] without the managed label, GetClusterObject
    returns that object and reports it as existing. *)
Lemma GetClusterObject_mirror_returns_unmarked :
  FederatedStore.ClusterSynced (withMember1 true) "member-1" = true
  ∧ managedlabel.HasManagedLabel (webObject None) = false
  ∧ GetClusterObject exampleNew "member-1" defaultWeb deployments (withMember1 true)
    = Done (Some (webObject None), true, None) (withMember1 true).
Proof. repeat split; vm_compute; reflexivity. Qed.

(** An update that both newly sets the deletion marker and takes readiness
    away is handled by the deletion-marker branch: the handle stays. *)
Example UpdateFunc_marked_and_unready_keeps_handle :
  let cur := setDeletionTimestamp (Some 1698690000%Z) member1Unready in
  let f' := exec (UpdateFunc bothCallbacks (ItemCluster member1) (ItemCluster cur))
              (withMember1 true) in
  IsClusterReady (Status member1) ≠ IsClusterReady (Status cur)
  ∧ targetInformers f' = targetInformers (withMember1 true)
  ∧ chans f' = [false]
  ∧ log f' = log (withMember1 true)
             ++ [EvSnapshot "member-1";
                 EvClusterUnavailable member1 [ItemUnstructured (webObject None)]].
Proof. split; [discriminate |]. repeat split; vm_compute; reflexivity. Qed.

(** ** The handle map's invariant along registry events *)

Lemma safe_ret {A : Type} (a : A) : safe (mret a).
Proof. intros f Hok. by exists a, f. Qed.

Lemma safe_bind {A B : Type} (m : M A) (k : A → M B) :
  safe m → (∀ a, safe (k a)) → safe (m ≫= k).
Proof.
  intros Hm Hk f Hok. destruct (Hm f Hok) as (a & f1 & Hrun & Hok1).
  unfold mbind, M_bind. rewrite Hrun. by apply Hk.
Qed.

Lemma safe_emit (ev : Event) : safe (emit ev).
Proof. intros f Hok. by exists tt, (set_log (log f ++ [ev]) f). Qed.

Lemma safe_when (b : bool) (m : M unit) : safe m → safe (when b m).
Proof. destruct b; [done |]. intros _. apply safe_ret. Qed.

Lemma safe_getClusterData (name : string) : safe (getClusterData name).
Proof.
  intros f Hok. rewrite getClusterData_run. by eexists _, _.
Qed.

Lemma safe_addCluster (cluster : FederatedCluster) : safe (addCluster cluster).
Proof.
  intros f [Hopen Hdistinct].
  destruct (addCluster_run cluster f) as (f' & Hrun & _ & _ & Hstate).
  exists tt, f'. split; [exact Hrun |].
  destruct (canInstall f cluster) as [[st ctl]|];
    destruct Hstate as (Hti & Hch & _).
  - assert (Hbound : ∀ n t c, targetInformers f !! n = Some t →
                              stopChan t = Some c → c < length (chans f)).
    { intros n t c Ht Hc. destruct (Hopen n t Ht) as (c' & Hc' & Ho).
      apply lookup_lt_Some in Ho. congruence. }
    split.
    + intros name ti. rewrite Hti, Hch.
      destruct (decide (Name (Meta cluster) = name)) as [->|Hne].
      * rewrite lookup_insert_eq. intros [= <-]. eexists. split; [reflexivity |].
        rewrite lookup_app_r by done. by rewrite Nat.sub_diag.
      * rewrite lookup_insert_ne by done. intros Hlk.
        destruct (Hopen name ti Hlk) as (c & Hc & Ho).
        exists c. split; [done |]. by apply lookup_app_l_Some.
    + intros n1 n2 t1 t2. rewrite Hti.
      destruct (decide (Name (Meta cluster) = n1)) as [<-|Hne1];
        destruct (decide (Name (Meta cluster) = n2)) as [<-|Hne2]; [done | | |].
      * rewrite lookup_insert_eq, lookup_insert_ne by done.
        intros [= <-] Ht2 Heq. cbn in Heq. symmetry in Heq.
        specialize (Hbound _ _ _ Ht2 Heq). lia.
      * rewrite lookup_insert_ne, lookup_insert_eq by done.
        intros Ht1 [= <-] Heq. cbn in Heq.
        specialize (Hbound _ _ _ Ht1 Heq). lia.
      * rewrite !lookup_insert_ne by done. apply Hdistinct.
  - split.
    + intros name ti. rewrite Hti, Hch. apply Hopen.
    + intros n1 n2 t1 t2. rewrite Hti. apply Hdistinct.
Qed.

Lemma safe_deleteCluster (cluster : FederatedCluster) : safe (deleteCluster cluster).
Proof.
  intros f [Hopen Hdistinct].
  destruct (deleteCluster_run cluster f (Hopen _))
    as (f' & Hrun & _ & Hti & _ & Hch & _).
  exists tt, f'. split; [exact Hrun |]. split.
  - intros name ti. rewrite Hti, Hch.
    destruct (decide (Name (Meta cluster) = name)) as [->|Hne].
    + by rewrite lookup_delete_eq.
    + rewrite lookup_delete_ne by done. intros Hlk.
      destruct (Hopen name ti Hlk) as (c & Hc & Ho).
      exists c. split; [done |]. unfold handleChan.
      destruct (targetInformers f !! Name (Meta cluster)) as [t0|] eqn:Ht0; [|done].
      destruct (stopChan t0) as [c0|] eqn:Hc0; [|done].
      rewrite list_lookup_insert_ne; [done |].
      intros ->. apply Hne. eapply Hdistinct; [exact Ht0 | exact Hlk | congruence].
  - intros n1 n2 t1 t2. rewrite Hti. intros H1 H2.
    apply lookup_delete_Some in H1 as [_ H1]. apply lookup_delete_Some in H2 as [_ H2].
    by eapply Hdistinct.
Qed.

Lemma safe_dispatch (cl : ClusterLifecycleHandlerFuncs) (ev : RegistryEvent) :
  safe (dispatch cl ev).
Proof.
  destruct ev as [cur|old cur|old]; cbn [dispatch].
  - unfold AddFunc. destruct (IsClusterReady (Status cur)); [|apply safe_ret].
    apply safe_bind; [apply safe_addCluster |]. intros _.
    apply safe_when, safe_emit.
  - unfold UpdateFunc.
    destruct (bool_decide _ && negb (bool_decide _)).
    + destruct (ClusterUnavailable cl); [|apply safe_ret].
      apply safe_bind; [apply safe_getClusterData |]. intros data. apply safe_emit.
    + destruct (materiallyChanged old cur); [|apply safe_ret].
      apply safe_bind.
      { destruct (ClusterUnavailable cl);
          [apply safe_getClusterData | apply safe_ret]. }
      intros data. apply safe_bind; [apply safe_deleteCluster |]. intros _.
      apply safe_bind; [apply safe_when, safe_emit |]. intros _.
      destruct (IsClusterReady (Status cur)); [|apply safe_ret].
      apply safe_bind; [apply safe_addCluster |]. intros _.
      apply safe_when, safe_emit.
  - unfold DeleteFunc. apply safe_bind.
    { destruct (ClusterUnavailable cl);
        [apply safe_getClusterData | apply safe_ret]. }
    intros data. apply safe_bind; [apply safe_deleteCluster |]. intros _.
    apply safe_when, safe_emit.
Qed.

(** Whatever registry events on cluster objects are delivered to a freshly
    built informer, the dispatcher does not panic, and in the state reached
    every recorded handle has an open stop channel of its own. *)
Lemma dispatchAll_handles_ok (cl : ClusterLifecycleHandlerFuncs)
  (registry : cache.Store) (registryController : cache.Controller)
  (factory : FederatedCluster → Config → result (cache.Store * cache.Controller))
  (config : FederatedCluster → result Config) (evs : list RegistryEvent) :
  ∃ f', dispatchAll cl evs
          (newFederatedInformerImpl registry registryController factory config)
        = Done tt f'
        ∧ handles_ok f'.
Proof.
  assert (Hsafe : safe (dispatchAll cl evs)).
  { induction evs as [|ev rest IH]; cbn [dispatchAll]; [apply safe_ret |].
    apply safe_bind; [apply safe_dispatch | done]. }
  destruct (Hsafe (newFederatedInformerImpl registry registryController factory config))
    as ([] & f' & Hrun & Hok); [|by eauto].
  split.
  - intros name ti Hti. cbn in Hti. by rewrite lookup_empty in Hti.
  - intros n1 n2 t1 t2 Ht1. cbn in Ht1. by rewrite lookup_empty in Ht1.
Qed.

(** * Further properties of the code *)

(** ** Conditions *)

(** X1: a cluster status is ready exactly when one of its conditions has
    type Ready and status True, and joined exactly when one of them has type
    Joined and status True; the position of the condition and other
    conditions of the same type do not matter. *)
Theorem ready_joined_by_some_condition (st : FederatedClusterStatus) :
  (IsClusterReady st = true
   ↔ ∃ c, c ∈ Conditions st
          ∧ condType c = fedcorev1a1.ClusterReady
          ∧ condStatus c = corev1.ConditionTrue)
  ∧ (IsClusterJoined st = true
     ↔ ∃ c, c ∈ Conditions st
            ∧ condType c = fedcorev1a1.ClusterJoined
            ∧ condStatus c = corev1.ConditionTrue).
Proof.
  unfold IsClusterReady, IsClusterJoined.
  destruct st as [conds]. cbn [Conditions]. split.
  - induction conds as [|c0 rest IH]; cbn.
    + split; [done |]. intros (c & Hin & _). by apply elem_of_nil in Hin.
    + destruct (String.eqb (condType c0) fedcorev1a1.ClusterReady) eqn:Ht;
        [destruct (String.eqb (condStatus c0) corev1.ConditionTrue) eqn:Hs |].
      * apply String.eqb_eq in Ht, Hs. split; [|done]. intros _. exists c0.
        split; [left | done].
      * rewrite IH. apply String.eqb_neq in Hs. split.
        -- intros (c & Hin & ? & ?). exists c. split; [by right | done].
        -- intros (c & Hin & ? & ?). apply elem_of_cons in Hin as [->|Hin];
             [done | eauto].
      * rewrite IH. apply String.eqb_neq in Ht. split.
        -- intros (c & Hin & ? & ?). exists c. split; [by right | done].
        -- intros (c & Hin & ? & ?). apply elem_of_cons in Hin as [->|Hin];
             [done | eauto].
  - induction conds as [|c0 rest IH]; cbn.
    + split; [done |]. intros (c & Hin & _). by apply elem_of_nil in Hin.
    + destruct (String.eqb (condType c0) fedcorev1a1.ClusterJoined) eqn:Ht;
        [destruct (String.eqb (condStatus c0) corev1.ConditionTrue) eqn:Hs |].
      * apply String.eqb_eq in Ht, Hs. split; [|done]. intros _. exists c0.
        split; [left | done].
      * rewrite IH. apply String.eqb_neq in Hs. split.
        -- intros (c & Hin & ? & ?). exists c. split; [by right | done].
        -- intros (c & Hin & ? & ?). apply elem_of_cons in Hin as [->|Hin];
             [done | eauto].
      * rewrite IH. apply String.eqb_neq in Ht. split.
        -- intros (c & Hin & ? & ?). exists c. split; [by right | done].
        -- intros (c & Hin & ? & ?). apply elem_of_cons in Hin as [->|Hin];
             [done | eauto].
Qed.

(** ** Registry-view queries as filters *)

Lemma GetUnreadyClusters_loop_filter (cs : list FederatedCluster) :
  ∀ acc,
    GetUnreadyClusters_loop (ItemCluster <$> cs) acc
    = Ok (acc ++ filter (λ c, IsClusterReady (Status c) = false) cs).
Proof.
  induction cs as [|c cs IH]; intros acc;
    cbn [fmap list_fmap GetUnreadyClusters_loop].
  - by rewrite filter_nil, app_nil_r.
  - destruct (IsClusterReady (Status c)) eqn:Hr; cbn [negb].
    + rewrite filter_cons_False by congruence. apply IH.
    + rewrite filter_cons_True by done. rewrite IH, <- app_assoc. reflexivity.
Qed.

Lemma getJoinedClusters_loop_filter (onlyReady : bool) (cs : list FederatedCluster) :
  ∀ acc,
    getJoinedClusters_loop onlyReady (ItemCluster <$> cs) acc
    = Ok (acc ++ filter (λ c, IsClusterJoined (Status c) = true
                              ∧ (onlyReady = true → IsClusterReady (Status c) = true))
                        cs).
Proof.
  induction cs as [|c cs IH]; intros acc;
    cbn [fmap list_fmap getJoinedClusters_loop].
  - by rewrite filter_nil, app_nil_r.
  - destruct (IsClusterJoined (Status c)) eqn:Hj; cbn [andb].
    + destruct onlyReady; cbn [negb orb].
      * destruct (IsClusterReady (Status c)) eqn:Hr.
        -- rewrite filter_cons_True by done. rewrite IH, <- app_assoc. reflexivity.
        -- rewrite filter_cons_False
             by (intros [_ H]; specialize (H eq_refl); congruence).
           apply IH.
      * rewrite filter_cons_True by done. rewrite IH, <- app_assoc. reflexivity.
    + rewrite filter_cons_False by (intros [? _]; congruence). apply IH.
Qed.

(** X2: over a registry that holds cluster objects only, the three list
    queries are filters that keep the registry's order: GetUnreadyClusters
    keeps the clusters that are not ready (joined or not), GetJoinedClusters
    the joined ones, GetReadyClusters the ones that are joined and ready. *)
Theorem registry_queries_are_filters (f : federatedInformerImpl)
  (cs : list FederatedCluster) :
  cache.List (store (clusterInformer f)) = ItemCluster <$> cs ->
  GetUnreadyClusters f = Ok (filter (λ c, IsClusterReady (Status c) = false) cs)
  ∧ GetJoinedClusters f = Ok (filter (λ c, IsClusterJoined (Status c) = true) cs)
  ∧ GetReadyClusters f
    = Ok (filter (λ c, IsClusterJoined (Status c) = true
                       ∧ IsClusterReady (Status c) = true) cs).
Proof.
  intros Hitems.
  unfold GetUnreadyClusters, GetJoinedClusters, GetReadyClusters, getJoinedClusters.
  rewrite Hitems, GetUnreadyClusters_loop_filter, !getJoinedClusters_loop_filter.
  cbn [app]. split; [reflexivity |]. split; f_equal; apply list_filter_iff.
  - intros c. split; [by intros [? _] | by intros ?; split].
  - intros c. split; [intros [? H]; auto | intros [? ?]; auto].
Qed.

Lemma registry_queries_are_filters_witness :
  GetUnreadyClusters mixedRegistry
  = Ok (filter (λ c, IsClusterReady (Status c) = false)
          [member1; readyOnly; member1Unready])
  ∧ GetJoinedClusters mixedRegistry
    = Ok (filter (λ c, IsClusterJoined (Status c) = true)
            [member1; readyOnly; member1Unready])
  ∧ GetReadyClusters mixedRegistry
    = Ok (filter (λ c, IsClusterJoined (Status c) = true
                       ∧ IsClusterReady (Status c) = true)
            [member1; readyOnly; member1Unready]).
Proof.
  apply (registry_queries_are_filters mixedRegistry
           [member1; readyOnly; member1Unready]).
  reflexivity.
Defined.

Lemma GetUnreadyClusters_loop_wrong (items : list Item) :
  ∀ acc, (∃ item, item ∈ items ∧ ∀ c, item ≠ ItemCluster c) →
         GetUnreadyClusters_loop items acc = Err wrongData.
Proof.
  induction items as [|i items IH]; intros acc (item & Hin & Hwrong).
  - by apply elem_of_nil in Hin.
  - apply elem_of_cons in Hin as [->|Hin].
    + destruct i; try reflexivity. by destruct (Hwrong c).
    + destruct i; try reflexivity. cbn.
      destruct (negb (IsClusterReady (Status c))); apply IH; eauto.
Qed.

Lemma getJoinedClusters_loop_wrong (onlyReady : bool) (items : list Item) :
  ∀ acc, (∃ item, item ∈ items ∧ ∀ c, item ≠ ItemCluster c) →
         getJoinedClusters_loop onlyReady items acc = Err wrongData.
Proof.
  induction items as [|i items IH]; intros acc (item & Hin & Hwrong).
  - by apply elem_of_nil in Hin.
  - apply elem_of_cons in Hin as [->|Hin].
    + destruct i; try reflexivity. by destruct (Hwrong c).
    + destruct i; try reflexivity. cbn.
      destruct (IsClusterJoined (Status c)
                && (negb onlyReady || IsClusterReady (Status c))); apply IH; eauto.
Qed.

(** X3: one object of a wrong type anywhere in the registry store makes
    each of the three list queries fail with the wrong-data error: no
    partial list is returned, whatever precedes or follows the object. *)
Theorem registry_queries_wrong_data (f : federatedInformerImpl) (item : Item) :
  item ∈ cache.List (store (clusterInformer f)) ->
  (∀ c, item ≠ ItemCluster c) ->
  GetUnreadyClusters f = Err wrongData
  ∧ GetJoinedClusters f = Err wrongData
  ∧ GetReadyClusters f = Err wrongData.
Proof.
  intros Hin Hwrong.
  unfold GetUnreadyClusters, GetJoinedClusters, GetReadyClusters, getJoinedClusters.
  rewrite GetUnreadyClusters_loop_wrong, !getJoinedClusters_loop_wrong by eauto.
  done.
Qed.

Lemma registry_queries_wrong_data_witness :
  GetUnreadyClusters corruptRegistry = Err wrongData
  ∧ GetJoinedClusters corruptRegistry = Err wrongData
  ∧ GetReadyClusters corruptRegistry = Err wrongData.
Proof.
  apply (registry_queries_wrong_data corruptRegistry (ItemOther "ConfigMap")).
  - right. left.
  - discriminate.
Defined.

(** ** Looking up one cluster *)

(** X4: GetReadyCluster finds a cluster exactly when the registry store
    holds a cluster object under the name, without error, and that cluster
    is ready.  A stored cluster that is not ready is found by GetCluster but
    reported by GetReadyCluster as not found, with a nil error; an object of
    another type under the name is the wrong-data error for both; and an
    error of the store is passed on by both with found false, whatever the
    store said about existence. *)
Theorem GetReadyCluster_found_iff (f : federatedInformerImpl) (name : string)
  (c : FederatedCluster) :
  (GetReadyCluster f name = (Some c, true, None)
   ↔ cache.GetByKey (store (clusterInformer f)) name
     = (Some (ItemCluster c), true, None)
     ∧ IsClusterReady (Status c) = true)
  ∧ (cache.GetByKey (store (clusterInformer f)) name
     = (Some (ItemCluster c), true, None) →
     IsClusterReady (Status c) = false →
     GetCluster f name = (Some c, true, None)
     ∧ GetReadyCluster f name = (None, false, None))
  ∧ (∀ item, cache.GetByKey (store (clusterInformer f)) name
             = (Some item, true, None) →
             (∀ c', item ≠ ItemCluster c') →
             GetCluster f name = (None, false, Some wrongData)
             ∧ GetReadyCluster f name = (None, false, Some wrongData))
  ∧ (∀ obj found err, cache.GetByKey (store (clusterInformer f)) name
                      = (obj, found, Some err) →
                      GetCluster f name = (None, false, Some err)
                      ∧ GetReadyCluster f name = (None, false, Some err)).
Proof.
  unfold GetReadyCluster, GetCluster, getReadyClusterUnlocked, getClusterUnlocked.
  split; [split | split; [|split]].
  - intros Hfound. repeat case_match; simplify_eq. done.
  - intros [-> ->]. reflexivity.
  - intros -> ->. done.
  - intros item -> Hwrong. destruct item as [c'| | | |]; try done.
    by destruct (Hwrong c').
  - intros obj found err ->. by destruct obj as [[]|], found.
Qed.

Lemma getConfigForClusterUnlocked_Ok (f : federatedInformerImpl) (name : string)
  (config : Config) :
  getConfigForClusterUnlocked f name = Ok config →
  ∃ c, GetReadyCluster f name = (Some c, true, None)
       ∧ configFactory f c = Ok config.
Proof.
  unfold getConfigForClusterUnlocked, GetReadyCluster.
  destruct (getReadyClusterUnlocked f name) as [[[c|] [|]] [e|]];
    try (intros [=]; fail). eauto.
Qed.

(** X5: getConfigForClusterUnlocked yields a configuration exactly when the
    cluster is found ready in the registry and the configuration factory
    succeeds on that cluster; for a cluster that is absent or not ready it
    fails with "cluster ... not found" and the factory is not consulted. *)
Theorem getConfigForClusterUnlocked_ready_only (f : federatedInformerImpl)
  (name : string) (config : Config) :
  (getConfigForClusterUnlocked f name = Ok config
   ↔ ∃ c, GetReadyCluster f name = (Some c, true, None)
          ∧ configFactory f c = Ok config)
  ∧ (GetReadyCluster f name = (None, false, None) →
     getConfigForClusterUnlocked f name
     = Err (Errorf ("cluster " +:+ name +:+ " not found"))).
Proof.
  split; [split |].
  - apply getConfigForClusterUnlocked_Ok.
  - unfold getConfigForClusterUnlocked, GetReadyCluster.
    intros (c & -> & Hc). exact Hc.
  - unfold getConfigForClusterUnlocked, GetReadyCluster.
    intros ->. reflexivity.
Qed.

(** ** The client cache *)

(** X6: GetClientForCluster never panics.  When it returns a client, that
    client is in the cache under the name afterwards, nothing else of the
    state has changed, and calling it again returns the same client and
    leaves the state as it is.  When it fails, it returns no client and the
    state, the cache included, is unchanged. *)
Theorem GetClientForCluster_memoizes
  (generic_New : Config → result generic.Client) (name : string)
  (f : federatedInformerImpl) :
  ∃ r f',
    GetClientForCluster generic_New name f = Done r f'
    ∧ ((∃ client,
          r = (Some client, None)
          ∧ clusterClients f' !! name = Some client
          ∧ (∀ other, other ≠ name →
                      clusterClients f' !! other = clusterClients f !! other)
          ∧ targetInformers f' = targetInformers f
          ∧ chans f' = chans f
          ∧ log f' = log f
          ∧ same_env f f'
          ∧ GetClientForCluster generic_New name f' = Done r f')
       ∨ (∃ err, r = (None, Some err)
                 ∧ f' = f
                 ∧ clusterClients f !! name = None)).
Proof.
  unfold GetClientForCluster at 1. run.
  destruct (clusterClients f !! name) as [client|] eqn:Hcached.
  - exists (Some client, None), f. split; [reflexivity |]. left. exists client.
    repeat split; try done.
    unfold GetClientForCluster. run. by rewrite Hcached.
  - destruct (getConfigForClusterUnlocked f name) as [config|err].
    + destruct (generic_New config) as [client|err]; run.
      * eexists _, _. split; [reflexivity |]. left. exists client. cbn.
        split; [done |]. split; [apply lookup_insert_eq |].
        split; [by intros; rewrite lookup_insert_ne |].
        repeat split; try done.
        unfold GetClientForCluster. run. by rewrite lookup_insert_eq.
      * eexists _, _. split; [reflexivity |]. right. by exists err.
    + eexists _, _. split; [reflexivity |]. right. by eexists.
Qed.

(** X7: a client that is not in the cache is built only for a cluster that
    the registry holds and that is ready, from the configuration the
    factory gives for that cluster; a client that is in the cache is
    returned without looking at the registry. *)
Theorem GetClientForCluster_source
  (generic_New : Config → result generic.Client) (name : string)
  (f f' : federatedInformerImpl) (client : generic.Client) :
  GetClientForCluster generic_New name f = Done (Some client, None) f' ->
  clusterClients f !! name = Some client
  ∨ (clusterClients f !! name = None
     ∧ ∃ c config,
         GetReadyCluster f name = (Some c, true, None)
         ∧ configFactory f c = Ok config
         ∧ generic_New config = Ok client).
Proof.
  unfold GetClientForCluster. run.
  destruct (clusterClients f !! name) as [cached|] eqn:Hcached.
  - intros [= -> _]. by left.
  - destruct (getConfigForClusterUnlocked f name) as [config|err] eqn:Hcfg;
      [|intros [=]].
    destruct (generic_New config) as [built|err] eqn:Hnew; run; intros [= -> _].
    right. split; [done |].
    apply getConfigForClusterUnlocked_Ok in Hcfg as (c & Hc & Hfac).
    eauto.
Qed.

Lemma GetClientForCluster_source_witness :
  clusterClients withCachedClient !! "member-1" = Some (clientOf [])
  ∨ (clusterClients withCachedClient !! "member-1" = None
     ∧ ∃ c config,
         GetReadyCluster withCachedClient "member-1" = (Some c, true, None)
         ∧ configFactory withCachedClient c = Ok config
         ∧ exampleNew config = Ok (clientOf [])).
Proof.
  apply (GetClientForCluster_source exampleNew "member-1" withCachedClient
           withCachedClient (clientOf [])).
  vm_compute. reflexivity.
Defined.

(** ** Removing a handle *)

(** X8: deleteCluster on a cluster whose handle, if any, has an open
    channel never panics; afterwards neither a handle nor a cached client is
    left under the cluster's name, the entries of every other name are
    untouched, and every open channel other than the handle's own is still
    open. *)
Theorem deleteCluster_evicts (cluster : FederatedCluster)
  (f : federatedInformerImpl) :
  handle_open f (Name (Meta cluster)) ->
  ∃ f',
    deleteCluster cluster f = Done tt f'
    ∧ targetInformers f' !! Name (Meta cluster) = None
    ∧ clusterClients f' !! Name (Meta cluster) = None
    ∧ (∀ other, other ≠ Name (Meta cluster) →
                targetInformers f' !! other = targetInformers f !! other
                ∧ clusterClients f' !! other = clusterClients f !! other)
    ∧ (∀ ch, chans f !! ch = Some false →
             handleChan f (Name (Meta cluster)) ≠ Some ch →
             chans f' !! ch = Some false).
Proof.
  intros Hopen.
  destruct (deleteCluster_run cluster f Hopen)
    as (f' & Hrun & _ & Hti & Hcc & Hch & _).
  exists f'. split; [exact Hrun |]. rewrite Hti, Hcc, Hch.
  split; [apply lookup_delete_eq |]. split; [apply lookup_delete_eq |].
  split.
  - intros other Hne. by rewrite !lookup_delete_ne.
  - intros ch Hopen_ch Hother.
    destruct (handleChan f (Name (Meta cluster))) as [c|]; [|done].
    rewrite list_lookup_insert_ne; [done | congruence].
Qed.

Lemma deleteCluster_evicts_witness :
  ∃ f',
    deleteCluster member1 withCachedClient = Done tt f'
    ∧ targetInformers f' !! "member-1" = None
    ∧ clusterClients f' !! "member-1" = None
    ∧ (∀ other, other ≠ "member-1" →
                targetInformers f' !! other = targetInformers withCachedClient !! other
                ∧ clusterClients f' !! other = clusterClients withCachedClient !! other)
    ∧ (∀ ch, chans withCachedClient !! ch = Some false →
             handleChan withCachedClient "member-1" ≠ Some ch →
             chans f' !! ch = Some false).
Proof.
  apply (deleteCluster_evicts member1 withCachedClient).
  exact withMember1_handle_open.
Defined.

(** ** The handlers, one event at a time *)

Lemma DeleteFunc_run (cl : ClusterLifecycleHandlerFuncs)
  (oldCluster : FederatedCluster) (f : federatedInformerImpl) :
  handle_open f (Name (Meta oldCluster)) →
  ∃ f',
    DeleteFunc cl (ItemCluster oldCluster) f = Done tt f'
    ∧ log f' = log f
               ++ snapshotStep cl (Name (Meta oldCluster))
               ++ destroyStep f (Name (Meta oldCluster))
               ++ unavailableStep cl f oldCluster
    ∧ targetInformers f' = delete (Name (Meta oldCluster)) (targetInformers f)
    ∧ clusterClients f' = delete (Name (Meta oldCluster)) (clusterClients f)
    ∧ chans f' = closedHandle f (Name (Meta oldCluster)).
Proof.
  intros Hopen. unfold DeleteFunc.
  set (oname := Name (Meta oldCluster)) in *.
  set (f1 := set_log (log f ++ snapshotStep cl oname) f).
  assert (Hsnap :
    (if ClusterUnavailable cl then getClusterData oname else mret []) f
    = Done (if ClusterUnavailable cl
            then (FederatedStore.ListFromCluster f oname).1 else []) f1).
  { unfold f1, snapshotStep. destruct (ClusterUnavailable cl).
    - apply getClusterData_run.
    - run. rewrite app_nil_r. by destruct f. }
  unfold mbind at 1. unfold M_bind at 1. rewrite Hsnap.
  destruct (deleteCluster_run oldCluster f1 Hopen)
    as (f2 & Hdel & _ & Hti2 & Hcc2 & Hch2 & Hlog2).
  unfold mbind at 1. unfold M_bind at 1. rewrite Hdel, when_emit_run.
  eexists. split; [reflexivity |]. cbn [log set_log targetInformers clusterClients chans].
  split; [|by auto].
  rewrite Hlog2. unfold f1. cbn [log set_log].
  unfold destroyStep, unavailableStep, handleChan. cbn [targetInformers set_log].
  fold oname. rewrite <- !app_assoc. do 3 f_equal.
  by destruct (ClusterUnavailable cl).
Qed.

(** X9: DeleteFunc on a cluster whose handle, if any, has an open channel
    takes the snapshot (only if ClusterUnavailable is registered) from the
    mirror as it is before the teardown, then closes the handle's channel
    and removes handle and cached client, and only then invokes
    ClusterUnavailable with that snapshot. *)
Theorem DeleteFunc_snapshot_then_teardown (cl : ClusterLifecycleHandlerFuncs)
  (oldCluster : FederatedCluster) (f : federatedInformerImpl) :
  handle_open f (Name (Meta oldCluster)) ->
  ∃ f',
    DeleteFunc cl (ItemCluster oldCluster) f = Done tt f'
    ∧ log f' = log f
               ++ snapshotStep cl (Name (Meta oldCluster))
               ++ destroyStep f (Name (Meta oldCluster))
               ++ unavailableStep cl f oldCluster
    ∧ targetInformers f' = delete (Name (Meta oldCluster)) (targetInformers f)
    ∧ clusterClients f' = delete (Name (Meta oldCluster)) (clusterClients f)
    ∧ chans f' = closedHandle f (Name (Meta oldCluster)).
Proof.
  intros Hopen.
  destruct (DeleteFunc_run cl oldCluster f Hopen) as (f' & Hrun & Hrest).
  exists f'. split; [exact Hrun | exact Hrest].
Qed.

Lemma DeleteFunc_snapshot_then_teardown_witness :
  ∃ f',
    DeleteFunc bothCallbacks (ItemCluster member1) (withMember1 true) = Done tt f'
    ∧ log f' = log (withMember1 true)
               ++ snapshotStep bothCallbacks "member-1"
               ++ destroyStep (withMember1 true) "member-1"
               ++ unavailableStep bothCallbacks (withMember1 true) member1
    ∧ targetInformers f' = delete "member-1" (targetInformers (withMember1 true))
    ∧ clusterClients f' = delete "member-1" (clusterClients (withMember1 true))
    ∧ chans f' = closedHandle (withMember1 true) "member-1".
Proof.
  apply (DeleteFunc_snapshot_then_teardown bothCallbacks member1 (withMember1 true)).
  exact withMember1_handle_open.
Defined.

(** X10: an event object that is not a cluster (the tombstone that the
    cache delivers for a missed deletion, for one) is ignored by DeleteFunc
    and, in either position, by UpdateFunc: the state, handles included, is
    left as it is.  AddFunc panics on such an object. *)
Theorem handlers_on_foreign_items (cl : ClusterLifecycleHandlerFuncs)
  (item other : Item) (f : federatedInformerImpl) :
  (∀ c, item ≠ ItemCluster c) ->
  DeleteFunc cl item f = Done tt f
  ∧ UpdateFunc cl item other f = Done tt f
  ∧ UpdateFunc cl other item f = Done tt f
  ∧ AddFunc cl item f = Panic "invalid memory address or nil pointer dereference".
Proof.
  intros Hforeign.
  destruct item as [c| | | |]; [by destruct (Hforeign c) | | | |];
    (repeat split; try reflexivity; by destruct other).
Qed.

Lemma handlers_on_foreign_items_witness :
  let tombstone := ItemDeletedFinalStateUnknown "member-1" (ItemCluster member1) in
  DeleteFunc bothCallbacks tombstone (withMember1 true) = Done tt (withMember1 true)
  ∧ UpdateFunc bothCallbacks tombstone (ItemCluster member1) (withMember1 true)
    = Done tt (withMember1 true)
  ∧ UpdateFunc bothCallbacks (ItemCluster member1) tombstone (withMember1 true)
    = Done tt (withMember1 true)
  ∧ AddFunc bothCallbacks tombstone (withMember1 true)
    = Panic "invalid memory address or nil pointer dereference".
Proof.
  intros tombstone.
  apply (handlers_on_foreign_items bothCallbacks tombstone (ItemCluster member1)
           (withMember1 true)).
  discriminate.
Defined.

(** X11: AddFunc on a cluster object never panics and never touches the
    client cache or a channel that exists.  For a cluster that is not ready
    nothing happens at all.  For a ready cluster a handle on a fresh open
    channel is recorded under the cluster's name when the configuration and
    the target informer factory succeed, replacing whatever was recorded
    there, and ClusterAvailable (if registered) is invoked afterwards. *)
Theorem AddFunc_effect (cl : ClusterLifecycleHandlerFuncs)
  (curCluster : FederatedCluster) (f : federatedInformerImpl) :
  ∃ f',
    AddFunc cl (ItemCluster curCluster) f = Done tt f'
    ∧ same_env f f'
    ∧ clusterClients f' = clusterClients f
    ∧ log f' = log f ++ availableStep cl f curCluster
    ∧ if IsClusterReady (Status curCluster) then
        match canInstall f curCluster with
        | Some (st, ctl) =>
            targetInformers f'
            = <[Name (Meta curCluster) :=
                  {| controller := ctl; store := st;
                     stopChan := Some (length (chans f)) |}]> (targetInformers f)
            ∧ chans f' = chans f ++ [false]
        | None => targetInformers f' = targetInformers f ∧ chans f' = chans f
        end
      else f' = f.
Proof.
  unfold AddFunc, availableStep.
  destruct (IsClusterReady (Status curCluster)).
  - destruct (addCluster_run curCluster f) as (f1 & Hadd & Henv & Hcc & Hstate).
    unfold mbind at 1. unfold M_bind at 1. rewrite Hadd, when_emit_run.
    eexists. split; [reflexivity |].
    cbn [log set_log targetInformers clusterClients chans].
    split. { destruct Henv as (? & ? & ?). by repeat split. }
    split; [exact Hcc |].
    destruct (canInstall f curCluster) as [[st ctl]|];
      destruct Hstate as (Hti & Hch & Hlog); rewrite Hlog.
    + rewrite <- app_assoc. auto.
    + auto.
  - exists f. rewrite app_nil_r. repeat split; reflexivity.
Qed.

(** X12: when the handle of a ready cluster cannot be installed (the
    configuration or the target informer factory fails), AddFunc still
    invokes ClusterAvailable, although no handle is recorded and no
    controller is started. *)
Theorem AddFunc_available_without_handle (cl : ClusterLifecycleHandlerFuncs)
  (curCluster : FederatedCluster) (f : federatedInformerImpl) :
  IsClusterReady (Status curCluster) = true ->
  canInstall f curCluster = None ->
  ClusterAvailable cl = true ->
  ∃ f',
    AddFunc cl (ItemCluster curCluster) f = Done tt f'
    ∧ targetInformers f' = targetInformers f
    ∧ chans f' = chans f
    ∧ log f' = log f ++ [EvClusterAvailable curCluster].
Proof.
  intros Hready Hfail Hcb. unfold AddFunc. rewrite Hready.
  destruct (addCluster_run curCluster f) as (f1 & Hadd & _ & _ & Hstate).
  rewrite Hfail in Hstate. destruct Hstate as (Hti & Hch & Hlog).
  unfold mbind at 1. unfold M_bind at 1. rewrite Hadd, when_emit_run, Hcb.
  eexists. split; [reflexivity |]. cbn [targetInformers chans log set_log].
  by rewrite Hlog.
Qed.

Lemma AddFunc_available_without_handle_witness :
  ∃ f',
    AddFunc bothCallbacks (ItemCluster member1) (freshWith member1Unready)
    = Done tt f'
    ∧ targetInformers f' = targetInformers (freshWith member1Unready)
    ∧ chans f' = chans (freshWith member1Unready)
    ∧ log f' = log (freshWith member1Unready) ++ [EvClusterAvailable member1].
Proof.
  apply (AddFunc_available_without_handle bothCallbacks member1
           (freshWith member1Unready)); reflexivity.
Defined.

(** X13: an update that neither newly sets the deletion marker nor changes
    readiness, spec, labels or annotations does nothing: no snapshot, no
    callback, no channel closed, no handle touched. *)
Theorem UpdateFunc_unchanged_noop (cl : ClusterLifecycleHandlerFuncs)
  (oldCluster curCluster : FederatedCluster) (f : federatedInformerImpl) :
  ¬ (DeletionTimestamp (Meta oldCluster) = None
     ∧ DeletionTimestamp (Meta curCluster) ≠ None) ->
  IsClusterReady (Status oldCluster) = IsClusterReady (Status curCluster) ->
  Spec oldCluster = Spec curCluster ->
  Labels (Meta oldCluster) = Labels (Meta curCluster) ->
  Annotations (Meta oldCluster) = Annotations (Meta curCluster) ->
  UpdateFunc cl (ItemCluster oldCluster) (ItemCluster curCluster) f = Done tt f.
Proof.
  intros Hmark Hready Hspec Hlabels Hann. unfold UpdateFunc.
  apply newlyMarkedForDeletion_false in Hmark.
  unfold newlyMarkedForDeletion in Hmark. rewrite Hmark.
  destruct (materiallyChanged oldCluster curCluster) eqn:Hchanged; [|reflexivity].
  apply materiallyChanged_true in Hchanged. tauto.
Qed.

Lemma UpdateFunc_unchanged_noop_witness :
  UpdateFunc bothCallbacks (ItemCluster member1)
    (ItemCluster (setDeletionTimestamp None member1)) (withMember1 true)
  = Done tt (withMember1 true).
Proof.
  apply (UpdateFunc_unchanged_noop bothCallbacks member1
           (setDeletionTimestamp None member1) (withMember1 true));
    try reflexivity.
  intros [_ Hcur]. apply Hcur. reflexivity.
Defined.

(** X14: after an update in which a ready cluster loses readiness (and the
    deletion marker is not newly set), neither a handle nor a cached client
    is left under the cluster's name, the channel of the handle it had is
    closed, and nothing is installed in its place. *)
Theorem UpdateFunc_unready_removes_handle (cl : ClusterLifecycleHandlerFuncs)
  (oldCluster curCluster : FederatedCluster) (f : federatedInformerImpl) :
  ¬ (DeletionTimestamp (Meta oldCluster) = None
     ∧ DeletionTimestamp (Meta curCluster) ≠ None) ->
  IsClusterReady (Status oldCluster) = true ->
  IsClusterReady (Status curCluster) = false ->
  handle_open f (Name (Meta oldCluster)) ->
  ∃ f',
    UpdateFunc cl (ItemCluster oldCluster) (ItemCluster curCluster) f = Done tt f'
    ∧ targetInformers f' !! Name (Meta oldCluster) = None
    ∧ clusterClients f' !! Name (Meta oldCluster) = None
    ∧ (∀ c, handleChan f (Name (Meta oldCluster)) = Some c →
            chans f' !! c = Some true)
    ∧ length (chans f') = length (chans f)
    ∧ log f' = log f
               ++ snapshotStep cl (Name (Meta oldCluster))
               ++ destroyStep f (Name (Meta oldCluster))
               ++ unavailableStep cl f oldCluster.
Proof.
  intros Hmark Hold Hcur Hopen.
  apply newlyMarkedForDeletion_false in Hmark.
  assert (Hchanged : materiallyChanged oldCluster curCluster = true).
  { apply materiallyChanged_true. left. congruence. }
  destruct (UpdateFunc_recreate_run cl oldCluster curCluster f Hmark Hchanged Hopen)
    as (f' & Hrun & _ & Hcc & Hlog & Hstate).
  unfold availableStep in Hlog. rewrite Hcur in Hstate, Hlog.
  destruct Hstate as [Hti Hch]. rewrite app_nil_r in Hlog.
  exists f'. split; [exact Hrun |]. rewrite Hti, Hcc, Hch.
  split; [apply lookup_delete_eq |]. split; [apply lookup_delete_eq |].
  split; [|split; [apply closedHandle_length | exact Hlog]].
  intros c Hc. unfold closedHandle. rewrite Hc.
  apply list_lookup_insert_eq. unfold handleChan in Hc.
  destruct (targetInformers f !! Name (Meta oldCluster)) as [ti|] eqn:Hti0; [|done].
  destruct (Hopen ti Hti0) as (c' & Hc' & Ho).
  apply lookup_lt_Some in Ho. congruence.
Qed.

Lemma UpdateFunc_unready_removes_handle_witness :
  ∃ f',
    UpdateFunc bothCallbacks (ItemCluster member1) (ItemCluster member1Unready)
      withCachedClient = Done tt f'
    ∧ targetInformers f' !! "member-1" = None
    ∧ clusterClients f' !! "member-1" = None
    ∧ (∀ c, handleChan withCachedClient "member-1" = Some c →
            chans f' !! c = Some true)
    ∧ length (chans f') = length (chans withCachedClient)
    ∧ log f' = log withCachedClient
               ++ snapshotStep bothCallbacks "member-1"
               ++ destroyStep withCachedClient "member-1"
               ++ unavailableStep bothCallbacks withCachedClient member1.
Proof.
  apply (UpdateFunc_unready_removes_handle bothCallbacks member1 member1Unready
           withCachedClient).
  - intros [_ Hcur]. apply Hcur. reflexivity.
  - reflexivity.
  - reflexivity.
  - exact withMember1_handle_open.
Defined.

(** ** Events of one cluster leave the other clusters alone *)

Lemma keeps_ret {A : Type} (name : string) (a : A) : keeps name (mret a).
Proof. intros f a' f'. unfold mret, M_ret. by intros [= _ <-]. Qed.

Lemma keeps_bind {A B : Type} (name : string) (m : M A) (k : A → M B) :
  keeps name m → (∀ a, keeps name (k a)) → keeps name (m ≫= k).
Proof.
  intros Hm Hk f b f'. unfold mbind, M_bind.
  destruct (m f) as [a f1|] eqn:Hrun; [|discriminate].
  intros Hrun'. destruct (Hm _ _ _ Hrun) as [H1 H2].
  destruct (Hk _ _ _ _ Hrun') as [H3 H4]. split; congruence.
Qed.

Lemma keeps_emit (name : string) (ev : Event) : keeps name (emit ev).
Proof. intros f [] f'. unfold emit, modify. by intros [= <-]. Qed.

Lemma keeps_when (name : string) (b : bool) (m : M unit) :
  keeps name m → keeps name (when b m).
Proof. destruct b; [done |]. intros _. apply keeps_ret. Qed.

Lemma keeps_getClusterData (name other : string) : keeps name (getClusterData other).
Proof. intros f a f'. rewrite getClusterData_run. by intros [= _ <-]. Qed.

Lemma keeps_addCluster (name : string) (cluster : FederatedCluster) :
  Name (Meta cluster) ≠ name → keeps name (addCluster cluster).
Proof.
  intros Hne f [] f' Hrun.
  destruct (addCluster_run cluster f) as (f1 & Hrun1 & _ & Hcc & Hstate).
  rewrite Hrun in Hrun1. injection Hrun1 as <-. rewrite Hcc. split; [|done].
  destruct (canInstall f cluster) as [[st ctl]|]; destruct Hstate as (-> & _).
  - by rewrite lookup_insert_ne.
  - done.
Qed.

Lemma deleteCluster_Done (cluster : FederatedCluster) (f f' : federatedInformerImpl) :
  deleteCluster cluster f = Done tt f' →
  targetInformers f' = delete (Name (Meta cluster)) (targetInformers f)
  ∧ clusterClients f' = delete (Name (Meta cluster)) (clusterClients f)
  ∧ clusterInformer f' = clusterInformer f.
Proof.
  unfold deleteCluster. run.
  destruct (targetInformers f !! Name (Meta cluster)) as [ti|].
  - destruct (close (stopChan ti) f) as [[] f1|] eqn:Hclose; [|discriminate].
    apply close_Done in Hclose as (ch & _ & _ & ->). by intros [= <-].
  - by intros [= <-].
Qed.

Lemma keeps_deleteCluster (name : string) (cluster : FederatedCluster) :
  Name (Meta cluster) ≠ name → keeps name (deleteCluster cluster).
Proof.
  intros Hne f [] f' Hrun. apply deleteCluster_Done in Hrun as (-> & -> & _).
  by rewrite !lookup_delete_ne.
Qed.

Lemma keeps_dispatch (name : string) (cl : ClusterLifecycleHandlerFuncs)
  (ev : RegistryEvent) :
  name ∉ eventNames ev → keeps name (dispatch cl ev).
Proof.
  destruct ev as [cur|old cur|old]; cbn [dispatch eventNames]; intros Hnot.
  - assert (Name (Meta cur) ≠ name) by (intros <-; apply Hnot; left).
    unfold AddFunc. destruct (IsClusterReady (Status cur)); [|apply keeps_ret].
    apply keeps_bind; [by apply keeps_addCluster |]. intros _.
    apply keeps_when, keeps_emit.
  - assert (Name (Meta old) ≠ name) by (intros <-; apply Hnot; left).
    assert (Name (Meta cur) ≠ name) by (intros <-; apply Hnot; right; left).
    unfold UpdateFunc.
    destruct (bool_decide _ && negb (bool_decide _)).
    + destruct (ClusterUnavailable cl); [|apply keeps_ret].
      apply keeps_bind; [apply keeps_getClusterData |]. intros data.
      apply keeps_emit.
    + destruct (materiallyChanged old cur); [|apply keeps_ret].
      apply keeps_bind.
      { destruct (ClusterUnavailable cl);
          [apply keeps_getClusterData | apply keeps_ret]. }
      intros data. apply keeps_bind; [by apply keeps_deleteCluster |]. intros _.
      apply keeps_bind; [apply keeps_when, keeps_emit |]. intros _.
      destruct (IsClusterReady (Status cur)); [|apply keeps_ret].
      apply keeps_bind; [by apply keeps_addCluster |]. intros _.
      apply keeps_when, keeps_emit.
  - assert (Name (Meta old) ≠ name) by (intros <-; apply Hnot; left).
    unfold DeleteFunc. apply keeps_bind.
    { destruct (ClusterUnavailable cl);
        [apply keeps_getClusterData | apply keeps_ret]. }
    intros data. apply keeps_bind; [by apply keeps_deleteCluster |]. intros _.
    apply keeps_when, keeps_emit.
Qed.

(** X15: a registry event about one cluster leaves every other cluster
    alone: started in a state whose handles have open channels of their own,
    the dispatcher returns, and the handle of a cluster that the event does
    not name is the same as before, with its channel still open, and so is
    its cached client. *)
Theorem dispatch_isolated (cl : ClusterLifecycleHandlerFuncs)
  (ev : RegistryEvent) (name : string) (f : federatedInformerImpl) :
  handles_ok f ->
  name ∉ eventNames ev ->
  ∃ f',
    dispatch cl ev f = Done tt f'
    ∧ targetInformers f' !! name = targetInformers f !! name
    ∧ clusterClients f' !! name = clusterClients f !! name
    ∧ handle_open f' name.
Proof.
  intros Hok Hnot.
  destruct (safe_dispatch cl ev f Hok) as ([] & f' & Hrun & [Hopen' _]).
  destruct (keeps_dispatch name cl ev Hnot _ _ _ Hrun) as [Hti Hcc].
  exists f'. auto.
Qed.

Lemma twoHandles_ok : handles_ok twoHandles.
Proof.
  assert (Hm : targetInformers twoHandles
               = <["member-3" := {| controller := {| cache.HasSynced := false |};
                                    store := storeOf [];
                                    stopChan := Some 1%nat |}]>
                   {["member-1" := {| controller := {| cache.HasSynced := true |};
                                      store := storeOf member1Mirror;
                                      stopChan := Some 0%nat |}]}).
  { vm_compute. reflexivity. }
  assert (Hlk : ∀ n t, targetInformers twoHandles !! n = Some t →
                       (n = "member-3" ∧ stopChan t = Some 1%nat)
                       ∨ (n = "member-1" ∧ stopChan t = Some 0%nat)).
  { intros n t. rewrite Hm. intros Hlk.
    apply lookup_insert_Some in Hlk as [[<- <-]|[_ Hlk]]; [by left |].
    apply lookup_singleton_Some in Hlk as [<- <-]. by right. }
  split.
  - intros n t Ht. destruct (Hlk n t Ht) as [[_ Hc]|[_ Hc]]; rewrite Hc; eauto.
  - intros n1 n2 t1 t2 H1 H2 Heq.
    destruct (Hlk n1 t1 H1) as [[-> Hc1]|[-> Hc1]];
      destruct (Hlk n2 t2 H2) as [[-> Hc2]|[-> Hc2]]; congruence.
Defined.

Lemma dispatch_isolated_witness :
  ∃ f',
    dispatch bothCallbacks (Deleted member1) twoHandles = Done tt f'
    ∧ targetInformers f' !! "member-3" = targetInformers twoHandles !! "member-3"
    ∧ clusterClients f' !! "member-3" = clusterClients twoHandles !! "member-3"
    ∧ handle_open f' "member-3".
Proof.
  apply (dispatch_isolated bothCallbacks (Deleted member1) "member-3" twoHandles).
  - exact twoHandles_ok.
  - cbn. intros Hin. apply list_elem_of_singleton in Hin. discriminate.
Defined.

(** ** Start, events, Stop *)

Lemma Stop_loop_total (entries : list (string * informer)) :
  ∀ g,
    (∀ e, e ∈ entries → ∃ c, stopChan e.2 = Some c ∧ chans g !! c = Some false) →
    NoDup ((λ e, stopChan e.2) <$> entries) →
    ∃ g',
      Stop_loop entries g = Done tt g'
      ∧ (∀ e, e ∈ entries → ∃ c, stopChan e.2 = Some c ∧ chans g' !! c = Some true)
      ∧ clusterClients g' = clusterClients g.
Proof.
  induction entries as [|[key inf] rest IH]; intros g Hopen Hnd.
  - exists g. split; [reflexivity |]. split; [|done].
    intros e Hin. by apply elem_of_nil in Hin.
  - cbn [fmap list_fmap snd] in Hnd. apply NoDup_cons in Hnd as [Hfresh Hnd].
    destruct (Hopen (key, inf) ltac:(left)) as (c & Hc & Ho). cbn in Hc.
    cbn [Stop_loop]. run. rewrite Hc, (close_open c g Ho).
    set (g1 := set_targetInformers _ _).
    destruct (IH g1) as (g' & Hrun & Hclosed & Hcc); [|exact Hnd |].
    { intros e Hin. destruct (Hopen e ltac:(by right)) as (c' & Hc' & Ho').
      exists c'. split; [done |]. unfold g1. cbn.
      rewrite list_lookup_insert_ne; [done |]. intros <-.
      apply Hfresh. apply list_elem_of_fmap. exists e. split; [congruence | done]. }
    exists g'. split; [exact Hrun |]. split; [|exact Hcc].
    intros e Hin. apply elem_of_cons in Hin as [->|Hin]; [|by apply Hclosed].
    exists c. split; [done |].
    apply Stop_loop_Done in Hrun as (_ & Hstay & _). apply Hstay.
    unfold g1. cbn. apply list_lookup_insert_eq. by eapply lookup_lt_Some.
Qed.

Lemma running_Stop (c0 : nat) (f : federatedInformerImpl) :
  running c0 f →
  ∃ f',
    Stop f = Done tt f'
    ∧ targetInformers f' = ∅
    ∧ chans f' !! c0 = Some true
    ∧ (∀ name ti, targetInformers f !! name = Some ti →
                  ∃ c, stopChan ti = Some c ∧ chans f' !! c = Some true)
    ∧ clusterClients f' = clusterClients f.
Proof.
  intros ([Hopen Hdistinct] & Hc0 & Ho0 & Hother).
  unfold Stop. run. rewrite Hc0, (close_open c0 f Ho0).
  set (f1 := set_log _ _).
  destruct (Stop_loop_total (map_to_list (targetInformers f)) f1)
    as (f' & Hrun & Hclosed & Hcc).
  { intros [name ti] Hin. apply elem_of_map_to_list in Hin.
    destruct (Hopen name ti Hin) as (c & Hc & Ho). exists c. split; [done |].
    unfold f1. cbn. rewrite list_lookup_insert_ne; [done |].
    intros <-. by apply (Hother name ti Hin). }
  { apply NoDup_fmap_2_strong; [|apply NoDup_map_to_list].
    intros [n1 t1] [n2 t2] H1 H2 Heq. cbn in Heq.
    apply elem_of_map_to_list in H1, H2.
    assert (n1 = n2) as -> by (by eapply Hdistinct). congruence. }
  assert (Hstop : Stop f = Done tt f').
  { unfold Stop. run. by rewrite Hc0, (close_open c0 f Ho0). }
  exists f'. split; [exact Hrun |].
  split; [by eapply Stop_clears_targetInformers |].
  split.
  { apply Stop_loop_Done in Hrun as (_ & Hstay & _). apply Hstay.
    unfold f1. cbn. apply list_lookup_insert_eq. by eapply lookup_lt_Some. }
  split; [|exact Hcc].
  intros name ti Hti. apply (Hclosed (name, ti)). by apply elem_of_map_to_list.
Qed.

(** X16: Stop on a running informer (the registry informer's stop channel
    is open and is not the channel of a handle, and every handle has an open
    channel of its own) does not panic; afterwards the registry channel and
    the channel of every handle that was recorded are closed and the handle
    map is empty, while the client cache is left as it was. *)
Theorem Stop_closes_everything (c0 : nat) (f : federatedInformerImpl) :
  running c0 f ->
  ∃ f',
    Stop f = Done tt f'
    ∧ targetInformers f' = ∅
    ∧ chans f' !! c0 = Some true
    ∧ (∀ name ti, targetInformers f !! name = Some ti →
                  ∃ c, stopChan ti = Some c ∧ chans f' !! c = Some true)
    ∧ clusterClients f' = clusterClients f.
Proof.
  intros Hrunning.
  destruct (running_Stop c0 f Hrunning) as (f' & Hrun & Hrest).
  exists f'. split; [exact Hrun | exact Hrest].
Qed.











(** X18: once a Stop has completed, a later delete event does not close
    any channel again: DeleteFunc returns, and channels and the (empty)
    handle map are as Stop left them. *)
Theorem DeleteFunc_after_Stop (cl : ClusterLifecycleHandlerFuncs)
  (oldCluster : FederatedCluster) (f f' : federatedInformerImpl) :
  Stop f = Done tt f' ->
  ∃ f'',
    DeleteFunc cl (ItemCluster oldCluster) f' = Done tt f''
    ∧ chans f'' = chans f'
    ∧ targetInformers f'' = ∅
    ∧ log f'' = log f'
                ++ snapshotStep cl (Name (Meta oldCluster))
                ++ [EvRemove (Name (Meta oldCluster))]
                ++ (if ClusterUnavailable cl
                    then [EvClusterUnavailable oldCluster []] else []).
Proof.
  intros Hstop. apply Stop_clears_targetInformers in Hstop as Hempty.
  unfold DeleteFunc, snapshotStep, getClusterData, FederatedStore.ListFromCluster,
    deleteCluster.
  destruct (ClusterUnavailable cl); run;
    do 3 (rewrite ?Hempty, ?lookup_empty; cbn);
    (eexists; split; [reflexivity |]); cbn;
    rewrite ?Hempty, ?delete_empty, <- ?app_assoc; done.
Qed.

Lemma DeleteFunc_after_Stop_witness :
  ∃ f'',
    DeleteFunc bothCallbacks (ItemCluster member1)
      (exec Stop (exec Start (withMember1 true))) = Done tt f''
    ∧ chans f'' = chans (exec Stop (exec Start (withMember1 true)))
    ∧ targetInformers f'' = ∅
    ∧ log f'' = log (exec Stop (exec Start (withMember1 true)))
                ++ snapshotStep bothCallbacks "member-1"
                ++ [EvRemove "member-1"]
                ++ [EvClusterUnavailable member1 []].
Proof.
  apply (DeleteFunc_after_Stop bothCallbacks member1 (exec Start (withMember1 true))).
  vm_compute. reflexivity.
Defined.

Lemma startedWithMember1_running : running 1 (exec Start (withMember1 true)).
Proof.
  assert (Hlk : ∀ n t, targetInformers (exec Start (withMember1 true)) !! n = Some t →
                       n = "member-1" ∧ stopChan t = Some 0%nat).
  { intros n t.
    change (targetInformers (exec Start (withMember1 true)))
      with (targetInformers (withMember1 true)).
    assert (Hm : targetInformers (withMember1 true)
                 = {["member-1" := {| controller := {| cache.HasSynced := true |};
                                      store := storeOf member1Mirror;
                                      stopChan := Some 0%nat |}]})
      by (vm_compute; reflexivity).
    rewrite Hm. intros Hlk. by apply lookup_singleton_Some in Hlk as [<- <-]. }
  split; [split |].
  - intros n t Ht. destruct (Hlk n t Ht) as [_ Hc]. rewrite Hc. eauto.
  - intros n1 n2 t1 t2 H1 H2 _.
    destruct (Hlk n1 t1 H1) as [-> _], (Hlk n2 t2 H2) as [-> _]. done.
  - split; [reflexivity |]. split; [reflexivity |].
    intros n t Ht. destruct (Hlk n t Ht) as [_ Hc]. rewrite Hc. discriminate.
Defined.

Lemma Stop_closes_everything_witness :
  ∃ f',
    Stop (exec Start (withMember1 true)) = Done tt f'
    ∧ targetInformers f' = ∅
    ∧ chans f' !! 1%nat = Some true
    ∧ (∀ name ti, targetInformers (exec Start (withMember1 true)) !! name = Some ti →
                  ∃ c, stopChan ti = Some c ∧ chans f' !! c = Some true)
    ∧ clusterClients f' = clusterClients (exec Start (withMember1 true)).
Proof.
  apply (Stop_closes_everything 1 (exec Start (withMember1 true))).
  exact startedWithMember1_running.
Defined.

(** ** The federated store's listing and sync probes *)

Lemma List_values_app (name : string) (values : list Item) :
  ∀ acc, FederatedStore.List_values name values acc = acc ++ (tagged name <$> values).
Proof.
  induction values as [|v values IH]; intros acc; cbn.
  - by rewrite app_nil_r.
  - rewrite IH, <- app_assoc. reflexivity.
Qed.

Lemma List_loop_app (entries : list (string * informer)) :
  ∀ acc,
    FederatedStore.List_loop entries acc
    = acc ++ flat_map (λ e, tagged e.1 <$> cache.List (store e.2)) entries.
Proof.
  induction entries as [|[name ti] rest IH]; intros acc; cbn.
  - by rewrite app_nil_r.
  - rewrite IH, List_values_app, <- app_assoc. reflexivity.
Qed.

Lemma filter_flat_map_absent (g : string * informer → list FederatedObject)
  (name : string) (entries : list (string * informer)) :
  (∀ e o, o ∈ g e → ClusterName o = e.1) →
  name ∉ entries.*1 →
  filter (λ o, ClusterName o = name) (flat_map g entries) = [].
Proof.
  intros Hg Hnot. apply filter_none. intros o Hin Hname.
  apply list_elem_of_In, in_flat_map in Hin as (e & He & Ho).
  apply list_elem_of_In in He, Ho. apply Hg in Ho.
  apply Hnot. apply list_elem_of_fmap. exists e. split; [congruence | done].
Qed.

Lemma filter_flat_map_present (g : string * informer → list FederatedObject)
  (name : string) (ti : informer) (entries : list (string * informer)) :
  (∀ e o, o ∈ g e → ClusterName o = e.1) →
  NoDup entries.*1 →
  (name, ti) ∈ entries →
  filter (λ o, ClusterName o = name) (flat_map g entries) = g (name, ti).
Proof.
  intros Hg. induction entries as [|[n0 t0] rest IH]; intros Hnd Hin.
  - by apply elem_of_nil in Hin.
  - cbn in Hnd. apply NoDup_cons in Hnd as [Hfresh Hnd].
    cbn [flat_map]. rewrite filter_app.
    apply elem_of_cons in Hin as [[= <- <-]|Hin].
    + rewrite (filter_flat_map_absent g name rest Hg Hfresh), app_nil_r.
      apply filter_all. intros o Ho. by apply Hg in Ho.
    + rewrite (IH Hnd Hin), filter_none; [done |].
      intros o Ho Hname. apply Hg in Ho. cbn in Ho.
      apply Hfresh. apply list_elem_of_fmap. exists (name, ti).
      split; [cbn; congruence | done].
Qed.

(** X19: whatever the order in which the handle map is ranged over, List
    returns a nil error and, for every cluster name, exactly the objects of
    that cluster's mirror, in the mirror's order and tagged with the name
    (nothing for a name without a handle); so the result has as many entries
    as the mirrors hold objects. *)
Theorem List_tags_every_mirror (f : federatedInformerImpl)
  (order : list (string * informer)) :
  order ≡ₚ map_to_list (targetInformers f) ->
  ∃ r,
    FederatedStore.List_in order = (r, None)
    ∧ (∀ name,
         filter (λ o, ClusterName o = name) r
         = match targetInformers f !! name with
           | Some ti => tagged name <$> cache.List (store ti)
           | None => []
           end)
    ∧ length r
      = sum_list ((λ e, length (cache.List (store e.2)))
                    <$> map_to_list (targetInformers f)).
Proof.
  intros Hperm. unfold FederatedStore.List_in. rewrite List_loop_app. cbn [app].
  eexists. split; [reflexivity |].
  set (g := λ e : string * informer, tagged e.1 <$> cache.List (store e.2)).
  assert (Hg : ∀ e o, o ∈ g e → ClusterName o = e.1).
  { intros e o Hin. apply list_elem_of_fmap in Hin as (v & -> & _). reflexivity. }
  assert (Hnd : NoDup order.*1).
  { rewrite Hperm. apply NoDup_fst_map_to_list. }
  split.
  - intros name. destruct (targetInformers f !! name) as [ti|] eqn:Hlk.
    + rewrite (filter_flat_map_present g name ti order Hg Hnd); [reflexivity |].
      rewrite Hperm. by apply elem_of_map_to_list.
    + apply filter_flat_map_absent; [exact Hg |]. intros Hin.
      apply list_elem_of_fmap in Hin as ([n ti] & -> & Hin).
      rewrite Hperm in Hin. apply elem_of_map_to_list in Hin.
      cbn in Hlk. congruence.
  - rewrite <- Hperm. clear. induction order as [|e order IH]; [done |].
    cbn [flat_map fmap list_fmap sum_list]. rewrite length_app, IH.
    unfold g at 1. by rewrite length_fmap.
Qed.

Lemma List_tags_every_mirror_witness :
  ∃ r,
    FederatedStore.List_in (map_to_list (targetInformers twoHandles)) = (r, None)
    ∧ (∀ name,
         filter (λ o, ClusterName o = name) r
         = match targetInformers twoHandles !! name with
           | Some ti => tagged name <$> cache.List (store ti)
           | None => []
           end)
    ∧ length r
      = sum_list ((λ e, length (cache.List (store e.2)))
                    <$> map_to_list (targetInformers twoHandles)).
Proof.
  apply (List_tags_every_mirror twoHandles (map_to_list (targetInformers twoHandles))).
  reflexivity.
Defined.

(** X20: ClustersSynced of a list implies ClusterSynced of every cluster in
    the list; it is false whenever the list and the handle map differ in
    length; and for the empty list it holds exactly when no handle is
    active. *)
Theorem ClustersSynced_probe (f : federatedInformerImpl)
  (clusters : list FederatedCluster) :
  (FederatedStore.ClustersSynced f clusters = true →
   ∀ c, c ∈ clusters → FederatedStore.ClusterSynced f (Name (Meta c)) = true)
  ∧ (length clusters ≠ size (targetInformers f) →
     FederatedStore.ClustersSynced f clusters = false)
  ∧ (FederatedStore.ClustersSynced f [] = true ↔ targetInformers f = ∅).
Proof.
  split; [|split].
  - intros Hsynced c Hin. apply ClustersSynced_spec in Hsynced as [_ Hlisted].
    destruct (Hlisted c Hin) as (ti & Hti & Hs).
    unfold FederatedStore.ClusterSynced. by rewrite Hti.
  - intros Hlen. apply not_true_is_false. intros Hsynced.
    apply ClustersSynced_spec in Hsynced as [Hsize _]. congruence.
  - rewrite ClustersSynced_spec. cbn [length]. split.
    + intros [Hsize _]. by apply map_size_empty_iff.
    + intros ->. split; [apply map_size_empty |].
      intros c Hin. by apply elem_of_nil in Hin.
Qed.

(** ** The two paths of GetClusterObject *)

(** X21: when the cluster's handle has synced, GetClusterObject is a read
    of the mirror and nothing else: if it returns, the state is the one it
    started from (no client is built or cached), the existence flag and the
    error are the mirror's own, and an object is returned only if the mirror
    holds it as an unstructured object, without error.  A mirror entry that
    exists without error and is not an unstructured object makes it
    panic. *)
Theorem GetClusterObject_mirror_path
  (generic_New : Config → result generic.Client) (clusterName : string)
  (qualifedName : common.QualifiedName) (apiResource : schema.APIResource)
  (f : federatedInformerImpl) :
  FederatedStore.ClusterSynced f clusterName = true ->
  (∀ r f',
     GetClusterObject generic_New clusterName qualifedName apiResource f = Done r f' →
     f' = f
     ∧ r.1.2 = (FederatedStore.GetByKey f clusterName (common.String qualifedName)).1.2
     ∧ r.2 = (FederatedStore.GetByKey f clusterName (common.String qualifedName)).2
     ∧ ∀ u, r.1.1 = Some u →
            FederatedStore.GetByKey f clusterName (common.String qualifedName)
            = (Some (ItemUnstructured u), true, None))
  ∧ (∀ obj,
       FederatedStore.GetByKey f clusterName (common.String qualifedName)
       = (obj, true, None) →
       (∀ u, obj ≠ Some (ItemUnstructured u)) →
       GetClusterObject generic_New clusterName qualifedName apiResource f
       = Panic "interface conversion: not *unstructured.Unstructured").
Proof.
  intros Hsynced. unfold GetClusterObject.
  unfold mbind at 1. unfold M_bind at 1. unfold get at 1. rewrite Hsynced.
  unfold mbind at 1. unfold M_bind at 1. unfold get at 1. rewrite Hsynced.
  split.
  - intros r f'.
    destruct (FederatedStore.GetByKey f clusterName (common.String qualifedName))
      as [[obj [|]] [err|]]; cbn.
    + intros [= <- <-]. repeat split. intros u [=].
    + destruct obj as [[c|u| | |]|]; try (intros [=]; fail).
      intros [= <- <-]. repeat split. by intros u' [= <-].
    + intros [= <- <-]. repeat split. intros u [=].
    + intros [= <- <-]. repeat split. intros u [=].
  - intros obj -> Hforeign.
    destruct obj as [[c|u| | |]|]; try reflexivity. by destruct (Hforeign u).
Qed.

Lemma GetClusterObject_mirror_path_witness :
  (∀ r f',
     GetClusterObject exampleNew "member-1" defaultDb deployments (withMember1 true)
     = Done r f' →
     f' = withMember1 true
     ∧ r.1.2 = (FederatedStore.GetByKey (withMember1 true) "member-1"
                  (common.String defaultDb)).1.2
     ∧ r.2 = (FederatedStore.GetByKey (withMember1 true) "member-1"
                (common.String defaultDb)).2
     ∧ ∀ u, r.1.1 = Some u →
            FederatedStore.GetByKey (withMember1 true) "member-1"
              (common.String defaultDb)
            = (Some (ItemUnstructured u), true, None))
  ∧ (∀ obj,
       FederatedStore.GetByKey (withMember1 true) "member-1" (common.String defaultDb)
       = (obj, true, None) →
       (∀ u, obj ≠ Some (ItemUnstructured u)) →
       GetClusterObject exampleNew "member-1" defaultDb deployments (withMember1 true)
       = Panic "interface conversion: not *unstructured.Unstructured").
Proof.
  apply (GetClusterObject_mirror_path exampleNew "member-1" defaultDb deployments
           (withMember1 true)).
  vm_compute. reflexivity.
Defined.

(** The mirror has no [default/db], the remote side has it with the managed
    label: the synced path reports it absent without asking the remote
    side. *)
Example GetClusterObject_mirror_only :
  GetClusterObject exampleNew "member-1" defaultDb deployments (withMember1 true)
  = Done (None, false, None) (withMember1 true)
  ∧ ∃ u f', GetClusterObject exampleNew "member-1" defaultDb deployments
              (withMember1 false) = Done (Some u, true, None) f'.
Proof. split; [vm_compute; reflexivity |]. eexists _, _. vm_compute. reflexivity. Qed.

Lemma GetClientForCluster_ignores_handles
  (generic_New : Config → result generic.Client) (name : string)
  (f : federatedInformerImpl) (m' : gmap string informer) :
  GetClientForCluster generic_New name (set_targetInformers m' f)
  = match GetClientForCluster generic_New name f with
    | Done r f1 => Done r (set_targetInformers m' f1)
    | Panic msg => Panic msg
    end.
Proof.
  unfold GetClientForCluster. run.
  change (getConfigForClusterUnlocked (set_targetInformers m' f) name)
    with (getConfigForClusterUnlocked f name).
  destruct (clusterClients f !! name); [reflexivity |].
  destruct (getConfigForClusterUnlocked f name) as [config|]; [|reflexivity].
  destruct (generic_New config); reflexivity.
Qed.

(** X22: when the cluster's handle has not synced (or there is none),
    GetClusterObject does not consult the handle map or any mirror: what it
    returns is the same for any other content of the handle map under which
    the cluster still counts as not synced. *)
Theorem GetClusterObject_direct_ignores_mirror
  (generic_New : Config → result generic.Client) (clusterName : string)
  (qualifedName : common.QualifiedName) (apiResource : schema.APIResource)
  (f : federatedInformerImpl) (m' : gmap string informer) :
  FederatedStore.ClusterSynced f clusterName = false ->
  FederatedStore.ClusterSynced (set_targetInformers m' f) clusterName = false ->
  returned (GetClusterObject generic_New clusterName qualifedName apiResource
              (set_targetInformers m' f))
  = returned (GetClusterObject generic_New clusterName qualifedName apiResource f).
Proof.
  intros Hf Hm. unfold GetClusterObject.
  unfold mbind at 1. unfold M_bind at 1. unfold get at 1. rewrite Hm.
  unfold mbind at 2. unfold M_bind at 2. unfold get at 1. rewrite Hf.
  unfold mbind, M_bind. rewrite GetClientForCluster_ignores_handles.
  destruct (GetClientForCluster generic_New clusterName f)
    as [[[client|] [err|]] f1|]; try reflexivity.
  destruct (generic.Get client _ _ _) as [obj [err|]].
  - by destruct (apierrors.IsNotFound err).
  - by destruct (negb (managedlabel.HasManagedLabel obj)).
Qed.

Lemma GetClusterObject_direct_ignores_mirror_witness :
  returned (GetClusterObject exampleNew "member-1" defaultDb deployments
              (set_targetInformers ∅ (withMember1 false)))
  = returned (GetClusterObject exampleNew "member-1" defaultDb deployments
                (withMember1 false)).
Proof.
  apply (GetClusterObject_direct_ignores_mirror exampleNew "member-1" defaultDb
           deployments (withMember1 false) ∅); reflexivity.
Defined.

(** X23: the failures of the direct path.  If no client can be obtained,
    GetClusterObject returns that error wrapped, with no object.  If the
    client's Get fails with an error that apierrors.IsNotFound accepts (the
    status reason is NotFound, or it is not a known reason and the code is
    404, also under wrapping) the object is reported absent without error;
    any other Get error is returned wrapped, with no object.  In each case
    the state is the one GetClientForCluster left. *)
Theorem GetClusterObject_direct_failures
  (generic_New : Config → result generic.Client) (clusterName : string)
  (qualifedName : common.QualifiedName) (apiResource : schema.APIResource)
  (f : federatedInformerImpl) :
  FederatedStore.ClusterSynced f clusterName = false ->
  (∀ err f1,
     GetClientForCluster generic_New clusterName f = Done (None, Some err) f1 →
     GetClusterObject generic_New clusterName qualifedName apiResource f
     = Done (None, false,
             Some (Wrap ("failed to get client for cluster " +:+ clusterName) err)) f1)
  ∧ (∀ client f1 obj err,
       GetClientForCluster generic_New clusterName f = Done (Some client, None) f1 →
       generic.Get client (requestObject apiResource)
         (common.Namespace qualifedName) (common.Name qualifedName)
       = (obj, Some err) →
       GetClusterObject generic_New clusterName qualifedName apiResource f
       = Done (if apierrors.IsNotFound err then (None, false, None)
               else (None, false,
                     Some (Wrap ("failed to get object "
                                 +:+ common.String qualifedName
                                 +:+ " with client") err))) f1).
Proof.
  intros Hsynced. split.
  - intros err f1 Hclient. unfold GetClusterObject.
    unfold mbind at 1. unfold M_bind at 1. unfold get at 1. rewrite Hsynced.
    unfold mbind at 1. unfold M_bind at 1. rewrite Hclient. reflexivity.
  - intros client f1 obj err Hclient Hget. unfold GetClusterObject.
    unfold mbind at 1. unfold M_bind at 1. unfold get at 1. rewrite Hsynced.
    unfold mbind at 1. unfold M_bind at 1. rewrite Hclient.
    fold (requestObject apiResource). rewrite Hget.
    by destruct (apierrors.IsNotFound err).
Qed.

Lemma GetClusterObject_direct_failures_witness :
  (∀ err f1,
     GetClientForCluster exampleNew "member-1" (withMember1 false)
     = Done (None, Some err) f1 →
     GetClusterObject exampleNew "member-1" defaultCache deployments (withMember1 false)
     = Done (None, false,
             Some (Wrap ("failed to get client for cluster " +:+ "member-1") err)) f1)
  ∧ (∀ client f1 obj err,
       GetClientForCluster exampleNew "member-1" (withMember1 false)
       = Done (Some client, None) f1 →
       generic.Get client (requestObject deployments)
         (common.Namespace defaultCache) (common.Name defaultCache)
       = (obj, Some err) →
       GetClusterObject exampleNew "member-1" defaultCache deployments
         (withMember1 false)
       = Done (if apierrors.IsNotFound err then (None, false, None)
               else (None, false,
                     Some (Wrap ("failed to get object "
                                 +:+ common.String defaultCache
                                 +:+ " with client") err))) f1).
Proof.
  apply (GetClusterObject_direct_failures exampleNew "member-1" defaultCache
           deployments (withMember1 false)).
  reflexivity.
Defined.

Example GetClusterObject_direct_not_found :
  ∃ f', GetClusterObject exampleNew "member-1" defaultCache deployments
          (withMember1 false) = Done (None, false, None) f'
        ∧ is_Some (clusterClients f' !! "member-1").
Proof. eexists. split; [vm_compute; reflexivity |]. vm_compute. eauto. Qed.

(** ** Compositions of events *)

(** X24: marking a cluster for deletion and then deleting it.  With
    ClusterUnavailable registered and the handle's channel open, the
    callback is invoked twice, both times with the content of the mirror:
    the handle outlives the marking, so the delete event still finds the
    data, and it is torn down between the second snapshot and the second
    invocation. *)
Theorem mark_then_delete (cl : ClusterLifecycleHandlerFuncs)
  (oldCluster curCluster : FederatedCluster) (f : federatedInformerImpl) :
  ClusterUnavailable cl = true ->
  DeletionTimestamp (Meta oldCluster) = None ->
  DeletionTimestamp (Meta curCluster) ≠ None ->
  Name (Meta curCluster) = Name (Meta oldCluster) ->
  handle_open f (Name (Meta oldCluster)) ->
  ∃ f',
    (UpdateFunc cl (ItemCluster oldCluster) (ItemCluster curCluster);;
     DeleteFunc cl (ItemCluster curCluster)) f = Done tt f'
    ∧ targetInformers f' !! Name (Meta oldCluster) = None
    ∧ log f' = log f
               ++ [EvSnapshot (Name (Meta oldCluster));
                   EvClusterUnavailable oldCluster
                     (FederatedStore.ListFromCluster f (Name (Meta oldCluster))).1]
               ++ [EvSnapshot (Name (Meta oldCluster))]
               ++ destroyStep f (Name (Meta oldCluster))
               ++ [EvClusterUnavailable curCluster
                     (FederatedStore.ListFromCluster f (Name (Meta oldCluster))).1].
Proof.
  intros Hcb Hold Hcur Hname Hopen.
  set (name := Name (Meta oldCluster)) in *.
  set (data := (FederatedStore.ListFromCluster f name).1).
  set (f1 := set_log (log f ++ [EvSnapshot name; EvClusterUnavailable oldCluster data]) f).
  assert (Hmark : UpdateFunc cl (ItemCluster oldCluster) (ItemCluster curCluster) f
                  = Done tt f1).
  { unfold UpdateFunc.
    rewrite (bool_decide_eq_true_2 _ Hold), (bool_decide_eq_false_2 _ Hcur), Hcb.
    cbn [andb negb]. unfold mbind, M_bind. rewrite getClusterData_run.
    unfold emit, modify, f1. cbn [log set_log]. fold name. fold data.
    by rewrite <- app_assoc. }
  unfold mbind at 1. unfold M_bind at 1. rewrite Hmark.
  assert (Hopen1 : handle_open f1 (Name (Meta curCluster))) by (by rewrite Hname).
  destruct (DeleteFunc_run cl curCluster f1 Hopen1)
    as (f' & Hrun & Hlog & Hti & _).
  exists f'. split; [exact Hrun |]. rewrite Hti, Hname.
  split; [apply lookup_delete_eq |].
  rewrite Hlog. unfold snapshotStep, unavailableStep. rewrite Hcb, Hname.
  unfold f1. cbn [log set_log]. rewrite <- !app_assoc. reflexivity.
Qed.

Lemma mark_then_delete_witness :
  let cur := setDeletionTimestamp (Some 1698690000%Z) member1 in
  ∃ f',
    (UpdateFunc bothCallbacks (ItemCluster member1) (ItemCluster cur);;
     DeleteFunc bothCallbacks (ItemCluster cur)) (withMember1 true) = Done tt f'
    ∧ targetInformers f' !! "member-1" = None
    ∧ log f' = log (withMember1 true)
               ++ [EvSnapshot "member-1";
                   EvClusterUnavailable member1
                     (FederatedStore.ListFromCluster (withMember1 true) "member-1").1]
               ++ [EvSnapshot "member-1"]
               ++ destroyStep (withMember1 true) "member-1"
               ++ [EvClusterUnavailable cur
                     (FederatedStore.ListFromCluster (withMember1 true) "member-1").1].
Proof.
  intros cur.
  apply (mark_then_delete bothCallbacks member1 cur (withMember1 true));
    [reflexivity | reflexivity | discriminate | reflexivity |].
  exact withMember1_handle_open.
Defined.

(** X25: a material update of a ready cluster whose handle cannot be
    installed again (the configuration or the target informer factory
    fails) leaves the cluster without a handle and without a cached client:
    the old handle is closed and removed all the same, nothing is put in its
    place, and ClusterAvailable is still invoked when registered. *)
Theorem UpdateFunc_failed_reinstall (cl : ClusterLifecycleHandlerFuncs)
  (oldCluster curCluster : FederatedCluster) (f : federatedInformerImpl) :
  ¬ (DeletionTimestamp (Meta oldCluster) = None
     ∧ DeletionTimestamp (Meta curCluster) ≠ None) ->
  (IsClusterReady (Status oldCluster) ≠ IsClusterReady (Status curCluster)
   ∨ Spec oldCluster ≠ Spec curCluster
   ∨ Labels (Meta oldCluster) ≠ Labels (Meta curCluster)
   ∨ Annotations (Meta oldCluster) ≠ Annotations (Meta curCluster)) ->
  IsClusterReady (Status curCluster) = true ->
  canInstall f curCluster = None ->
  handle_open f (Name (Meta oldCluster)) ->
  ∃ f',
    UpdateFunc cl (ItemCluster oldCluster) (ItemCluster curCluster) f = Done tt f'
    ∧ targetInformers f' = delete (Name (Meta oldCluster)) (targetInformers f)
    ∧ clusterClients f' = delete (Name (Meta oldCluster)) (clusterClients f)
    ∧ chans f' = closedHandle f (Name (Meta oldCluster))
    ∧ log f' = log f
               ++ snapshotStep cl (Name (Meta oldCluster))
               ++ destroyStep f (Name (Meta oldCluster))
               ++ unavailableStep cl f oldCluster
               ++ (if ClusterAvailable cl then [EvClusterAvailable curCluster] else []).
Proof.
  intros Hmark Hchanged Hready Hfail Hopen.
  apply newlyMarkedForDeletion_false in Hmark.
  apply materiallyChanged_true in Hchanged.
  destruct (UpdateFunc_recreate_run cl oldCluster curCluster f Hmark Hchanged Hopen)
    as (f' & Hrun & _ & Hcc & Hlog & Hstate).
  unfold availableStep in Hlog. rewrite Hready, Hfail in *.
  destruct Hstate as [Hti Hch]. exists f'. auto.
Qed.

Lemma UpdateFunc_failed_reinstall_witness :
  ∃ f',
    UpdateFunc bothCallbacks (ItemCluster member1) (ItemCluster member1Relabelled)
      withMember1Failing = Done tt f'
    ∧ targetInformers f' = delete "member-1" (targetInformers withMember1Failing)
    ∧ clusterClients f' = delete "member-1" (clusterClients withMember1Failing)
    ∧ chans f' = closedHandle withMember1Failing "member-1"
    ∧ log f' = log withMember1Failing
               ++ snapshotStep bothCallbacks "member-1"
               ++ destroyStep withMember1Failing "member-1"
               ++ unavailableStep bothCallbacks withMember1Failing member1
               ++ [EvClusterAvailable member1Relabelled].
Proof.
  apply (UpdateFunc_failed_reinstall bothCallbacks member1 member1Relabelled
           withMember1Failing).
  - intros [_ Hcur]. apply Hcur. reflexivity.
  - right. right. left. discriminate.
  - reflexivity.
  - reflexivity.
  - exact withMember1_handle_open.
Defined.

(** Stop on an informer whose registry informer has no stop channel
    yet (Start has not run) panics on the nil channel, before any handle is
    touched. *)
Lemma Stop_before_Start_panics (f : federatedInformerImpl) :
  stopChan (clusterInformer f) = None ->
  Stop f = Panic "close of nil channel".
Proof. intros Hnil. unfold Stop. run. by rewrite Hnil. Qed.

Example Stop_before_Start_panics_example :
  Stop (withMember1 true) = Panic "close of nil channel".
Proof. apply (Stop_before_Start_panics (withMember1 true)). reflexivity. Qed.


(** ** What counts as not found *)

Lemma IsNotFound_iff (err : error) :
  apierrors.IsNotFound err = true
  ↔ (apierrors.reasonAndCodeForError err).1 = apierrors.StatusReasonNotFound
    ∨ (((apierrors.reasonAndCodeForError err).1 ∉ apierrors.knownReasons)
       ∧ (apierrors.reasonAndCodeForError err).2 = apierrors.StatusNotFound).
Proof.
  unfold apierrors.IsNotFound.
  destruct (apierrors.reasonAndCodeForError err) as [reason code]. cbn [fst snd].
  destruct (String.eqb reason apierrors.StatusReasonNotFound) eqn:Hr.
  - apply String.eqb_eq in Hr. split; auto.
  - apply String.eqb_neq in Hr.
    destruct (existsb (String.eqb reason) apierrors.knownReasons) eqn:Hk; cbn [negb andb].
    + apply existsb_exists in Hk as (k & Hin & Hk). apply String.eqb_eq in Hk.
      subst k. apply list_elem_of_In in Hin. split; [done |].
      intros [?|[Hnot _]]; done.
    + destruct (code =? apierrors.StatusNotFound)%Z eqn:Hc.
      * apply Z.eqb_eq in Hc. split; [|done]. intros _. right. split; [|done].
        intros Hin. apply list_elem_of_In in Hin.
        assert (existsb (String.eqb reason) apierrors.knownReasons = true); [|congruence].
        apply existsb_exists. exists reason. split; [done | apply String.eqb_refl].
      * apply Z.eqb_neq in Hc. split; [done |]. intros [?|[_ ?]]; done.
Qed.

(** A Get error without a reason and with code 404, even wrapped, counts as
    not found: the object is reported absent without error. *)
Example GetClusterObject_direct_plain404 :
  apierrors.IsNotFound (Wrap "get" plain404) = true
  ∧ ∃ f', GetClusterObject (λ _, Ok (clientFailing (Wrap "get" plain404)))
            "member-1" defaultCache deployments (withMember1 false)
          = Done (None, false, None) f'.
Proof. split; [reflexivity |]. eexists. vm_compute. reflexivity. Qed.

(** * Where the code departs from its documentation *)

(** ** The managed marker on the mirror path *)



(** ** A handle overwritten by addCluster *)

(** C3: the claim does not hold of the code for addCluster.  Run for a
    cluster whose handle is recorded (every handle on an open channel of its
    own), with factories that succeed, addCluster records a new handle on a
    fresh channel under the name and closes nothing: the previous handle's
    stop channel stays open, and no recorded handle refers to it any more,
    so neither deleteCluster nor Stop will ever close it. *)
Theorem addCluster_leaks_previous_handle (cluster : FederatedCluster)
  (f : federatedInformerImpl) (ti : informer) (c : nat) :
  handles_ok f ->
  targetInformers f !! Name (Meta cluster) = Some ti ->
  stopChan ti = Some c ->
  is_Some (canInstall f cluster) ->
  ∃ f' ti',
    addCluster cluster f = Done tt f'
    ∧ targetInformers f' !! Name (Meta cluster) = Some ti'
    ∧ stopChan ti' = Some (length (chans f))
    ∧ length (chans f) ≠ c
    ∧ chans f' !! c = Some false
    ∧ (∀ name t, targetInformers f' !! name = Some t → stopChan t ≠ Some c)
    ∧ log f' = log f ++ [EvInstall (Name (Meta cluster)) (length (chans f));
                         EvRun (Some (length (chans f)))].
Proof.
  intros [Hopen Hdistinct] Hti Hc [[st ctl] Hinst].
  destruct (Hopen _ ti Hti) as (c' & Hc' & Ho).
  assert (c' = c) as -> by congruence.
  assert (Hlt : c < length (chans f)) by (by eapply lookup_lt_Some).
  destruct (addCluster_run cluster f) as (f' & Hrun & _ & _ & Hstate).
  rewrite Hinst in Hstate. destruct Hstate as (Hti' & Hch' & Hlog').
  exists f', {| controller := ctl; store := st; stopChan := Some (length (chans f)) |}.
  split; [exact Hrun |]. rewrite Hti', Hch'.
  split; [apply lookup_insert_eq |]. split; [reflexivity |]. split; [lia |].
  split; [by apply lookup_app_l_Some |]. split; [|exact Hlog'].
  intros name t Hlk Hsame.
  apply lookup_insert_Some in Hlk as [[_ <-]|[Hne Hlk]].
  - cbn in Hsame. injection Hsame as Hsame. lia.
  - apply Hne. eapply Hdistinct; [exact Hti | exact Hlk | congruence].
Qed.

Lemma withMember1_handles_ok : handles_ok (withMember1 true).
Proof.
  assert (Hm : targetInformers (withMember1 true)
               = {["member-1" := {| controller := {| cache.HasSynced := true |};
                                    store := storeOf member1Mirror;
                                    stopChan := Some 0%nat |}]})
    by (vm_compute; reflexivity).
  split.
  - intros n t Ht. rewrite Hm in Ht.
    apply lookup_singleton_Some in Ht as [_ <-]. exists 0%nat. by split.
  - intros n1 n2 t1 t2 H1 H2 _. rewrite Hm in H1, H2.
    apply lookup_singleton_Some in H1 as [<- _].
    by apply lookup_singleton_Some in H2 as [<- _].
Defined.

Lemma addCluster_leaks_previous_handle_witness :
  ∃ f' ti',
    addCluster member1 (withMember1 true) = Done tt f'
    ∧ targetInformers f' !! "member-1" = Some ti'
    ∧ stopChan ti' = Some (length (chans (withMember1 true)))
    ∧ length (chans (withMember1 true)) ≠ 0%nat
    ∧ chans f' !! 0%nat = Some false
    ∧ (∀ name t, targetInformers f' !! name = Some t → stopChan t ≠ Some 0%nat)
    ∧ log f' = log (withMember1 true)
               ++ [EvInstall "member-1" (length (chans (withMember1 true)));
                   EvRun (Some (length (chans (withMember1 true))))].
Proof.
  apply (addCluster_leaks_previous_handle member1 (withMember1 true)
           {| controller := {| cache.HasSynced := true |};
              store := storeOf member1Mirror;
              stopChan := Some 0%nat |} 0%nat).
  - exact withMember1_handles_ok.
  - vm_compute. reflexivity.
  - reflexivity.
  - vm_compute. eauto.
Defined.

(** Two add events for the same ready cluster, between Start and Stop: the
    run completes, and the channel of the first handle (channel 1; Start
    made channel 0, the second add channel 2) is still open afterwards. *)
Example two_adds_then_Stop :
  ∃ f',
    (Start;; dispatchAll bothCallbacks twoAdds;; Stop) (fresh true) = Done tt f'
    ∧ chans f' = [true; false; true]
    ∧ targetInformers f' = ∅.
Proof.
  eexists. split; [vm_compute; reflexivity |].
  split; vm_compute; reflexivity.
Qed.

(** ** ClustersSynced counts the list *)

(** C4: the claim does not hold of the code for a list that names a cluster
    twice.  With two active target informers, one of them synced and listed
    twice, ClustersSynced returns true although the other active informer is
    not named in the list, whatever it reports about its sync. *)
Theorem ClustersSynced_repeated_name (f : federatedInformerImpl)
  (c : FederatedCluster) (ti : informer) :
  size (targetInformers f) = 2 ->
  targetInformers f !! Name (Meta c) = Some ti ->
  cache.HasSynced (controller ti) = true ->
  FederatedStore.ClustersSynced f [c; c] = true
  ∧ ∃ other,
      is_Some (targetInformers f !! other)
      ∧ (other ∉ (λ c, Name (Meta c)) <$> [c; c]).
Proof.
  intros Hsize Hti Hsynced. split.
  - apply ClustersSynced_spec. split; [exact Hsize |].
    intros c' Hin. exists ti.
    repeat (apply elem_of_cons in Hin as [->|Hin]; [by split |]).
    by apply elem_of_nil in Hin.
  - assert (Hrest : delete (Name (Meta c)) (targetInformers f) ≠ ∅).
    { apply map_size_non_empty_iff.
      rewrite map_size_delete_Some by eauto. rewrite Hsize. done. }
    apply map_choose in Hrest as (other & t & Hlk).
    apply lookup_delete_Some in Hlk as [Hne Hlk].
    exists other. split; [eauto |]. cbn. intros Hin.
    repeat (apply elem_of_cons in Hin as [Hin|Hin]; [congruence |]).
    by apply elem_of_nil in Hin.
Qed.

Lemma ClustersSynced_repeated_name_witness :
  FederatedStore.ClustersSynced twoHandles [member1; member1] = true
  ∧ ∃ other,
      is_Some (targetInformers twoHandles !! other)
      ∧ (other ∉ (λ c, Name (Meta c)) <$> [member1; member1]).
Proof.
  apply (ClustersSynced_repeated_name twoHandles member1
           {| controller := {| cache.HasSynced := true |};
              store := storeOf member1Mirror;
              stopChan := Some 0%nat |});
    vm_compute; reflexivity.
Defined.

(** ** Ready clusters that have not joined *)

(** C7: the claim does not hold of the code.  A cluster whose Ready
    condition is true and whose Joined condition is not is added like any
    ready cluster (its handle is recorded when the factories succeed), and
    with the registry listing it GetReadyClusters returns a list that does
    not contain it. *)
Theorem GetReadyClusters_omits_unjoined
  (clusterLifecycle : ClusterLifecycleHandlerFuncs)
  (A : FederatedCluster) (f : federatedInformerImpl) :
  IsClusterReady (Status A) = true ->
  IsClusterJoined (Status A) = false ->
  (∀ item, item ∈ cache.List (store (clusterInformer f)) →
           ∃ c, item = ItemCluster c) ->
  ItemCluster A ∈ cache.List (store (clusterInformer f)) ->
  ∃ f' l,
    AddFunc clusterLifecycle (ItemCluster A) f = Done tt f'
    ∧ ItemCluster A ∈ cache.List (store (clusterInformer f'))
    ∧ GetReadyClusters f' = Ok l
    ∧ (A ∉ l)
    ∧ (is_Some (canInstall f A) → is_Some (targetInformers f' !! Name (Meta A))).
Proof.
  intros Hready Hjoined Htyped Hin.
  unfold AddFunc. rewrite Hready.
  destruct (addCluster_run A f) as (f1 & Hadd & (Hci & _) & _ & Hstate).
  unfold mbind at 1. unfold M_bind at 1. rewrite Hadd, when_emit_run.
  destruct (getJoinedClusters_loop_spec true _ [] Htyped) as (l & Hl & Hmem).
  eexists _, l. split; [reflexivity |].
  cbn [clusterInformer set_log targetInformers]. rewrite Hci.
  split; [exact Hin |]. split.
  { unfold GetReadyClusters, getJoinedClusters.
    cbn [clusterInformer set_log]. rewrite Hci. exact Hl. }
  split.
  - intros HA. apply Hmem in HA as [HA|(_ & Hj & _)].
    + by apply elem_of_nil in HA.
    + congruence.
  - intros [[st ctl] Hinst]. rewrite Hinst in Hstate.
    destruct Hstate as (-> & _). rewrite lookup_insert_eq. eauto.
Qed.

Lemma GetReadyClusters_omits_unjoined_witness :
  ∃ f' l,
    AddFunc bothCallbacks (ItemCluster readyOnly) (freshWith readyOnly) = Done tt f'
    ∧ ItemCluster readyOnly ∈ cache.List (store (clusterInformer f'))
    ∧ GetReadyClusters f' = Ok l
    ∧ (readyOnly ∉ l)
    ∧ (is_Some (canInstall (freshWith readyOnly) readyOnly) →
       is_Some (targetInformers f' !! Name (Meta readyOnly))).
Proof.
  apply (GetReadyClusters_omits_unjoined bothCallbacks readyOnly (freshWith readyOnly));
    [reflexivity | reflexivity | | left].
  intros item Hin. apply list_elem_of_singleton in Hin. eauto.
Defined.

(** The same cluster through the other queries: GetReadyCluster finds it,
    and GetUnreadyClusters does not list it either. *)
Example readyOnly_other_queries :
  let f' := exec (AddFunc bothCallbacks (ItemCluster readyOnly)) (freshWith readyOnly) in
  GetReadyCluster f' "member-2" = (Some readyOnly, true, None)
  ∧ GetUnreadyClusters f' = Ok []
  ∧ GetReadyClusters f' = Ok []
  ∧ is_Some (targetInformers f' !! "member-2").
Proof. repeat split; vm_compute; eauto. Qed.
